(** * EyeZen Detect: a shallow embedding of the front-end boundary layer
      and of the serving core's contracts

    The development follows the TypeScript sources:

    - [Performance]  : utils/performance.ts  (PerformanceMonitor, measureApiCall)
    - [Upload]       : components/UploadSection.tsx  (handleFiles)
    - [Results]      : components/ResultsSection.tsx (the rendered result card)
    - [IndexPage]    : pages/Index.tsx  (handleImageUpload)
    - [Chat]         : components/ChatBot.tsx (handleSendMessage)
    - [Core]         : the Python serving core (preprocess, explain), which is
                       not part of the sources at hand and is modelled from
                       its written contract.

    Conventions.  JavaScript numbers are modelled by exact rationals [Q]
    (time stamps, confidences) or by [Z]/[N] where the source only ever
    holds integers (file sizes, [Date.now()]).  JavaScript strings are
    modelled by [string], read as UTF-8 bytes: [\W] is every byte but the
    ASCII letters, digits and underscore, [trim] strips the Unicode white
    space of ECMAScript, [toLowerCase] maps the ASCII letters.  An
    [async] function is a state transformer over the part of the browser
    it touches and returns a promise outcome: resolved, rejected, or
    never settled. *)

From Stdlib Require Import List String Ascii Bool ZArith NArith QArith Qround Lia Lqa.
From Stdlib Require Import Numbers.DecimalString.
From ExtLib Require Import Structures.Monad Structures.MonadExc.
Import ListNotations.
Import MonadNotation.

Set Warnings "-register-all".

Local Open Scope string_scope.
Local Open Scope monad_scope.

(* ===================================================================== *)
(** * JavaScript values shared by the components *)
(* ===================================================================== *)

Module JS.

(** A thrown value.  Every value the sources throw or receive in a
    [catch] is an [Error] object: its constructor name and its message. *)
Record Thrown : Type := mkThrown { errName : string; errMessage : string }.

(** The outcome of awaiting a promise. *)
Inductive Outcome (A : Type) : Type :=
| Resolved (v : A)
| Rejected (e : Thrown)
| Pending.

Arguments Resolved {A} v.
Arguments Rejected {A} e.
Arguments Pending {A}.

Definition settled {A} (o : Outcome A) : bool :=
  match o with Pending => false | _ => true end.

(** [Number.prototype.toString()] of an integer. *)
Definition Z_toString (z : Z) : string := NilZero.string_of_int (Z.to_int z).

(** [Math.round]: the nearest integer, ties towards +infinity. *)
Definition Math_round (x : Q) : Z := Qfloor (x + (1 # 2)).

(** [Math.floor]. *)
Definition Math_floor (x : Q) : Z := Qfloor x.

(** [String.prototype.startsWith]. *)
Definition startsWith (s p : string) : bool := String.prefix p s.

(** [String.prototype.includes]: [p] occurs in [s] as a substring. *)
Fixpoint includes (s p : string) : bool :=
  String.prefix p s ||
  match s with
  | EmptyString => false
  | String _ s' => includes s' p
  end.

(** Truthiness of a string-or-null value: [null], [undefined] and the
    empty string are falsy. *)
Definition truthy_str (o : option string) : bool :=
  match o with
  | None => false
  | Some s => negb (String.eqb s "")
  end.

(** Truthiness of an optional number: [undefined] and [0] are falsy. *)
Definition truthy_num (o : option Q) : bool :=
  match o with
  | None => false
  | Some q => negb (Qeq_bool q 0)
  end.

End JS.

Import JS.

(* ===================================================================== *)
(** * utils/performance.ts *)
(* ===================================================================== *)

Module Performance.

(** [interface PerformanceMetric]. *)
Record PerformanceMetric : Type := mkMetric {
  name : string;
  startTime : Q;
  endTime : option Q;
  duration : option Q
}.

(** A JavaScript [Map<string, PerformanceMetric>]: keys are unique and
    iteration follows insertion order, which [getMetrics] exposes. *)
Definition MetricMap : Type := list (string * PerformanceMetric).

Fixpoint map_get (m : MetricMap) (k : string) : option PerformanceMetric :=
  match m with
  | [] => None
  | (k', v) :: r => if String.eqb k k' then Some v else map_get r k
  end.

(** [Map.prototype.set]: an existing key keeps its position. *)
Fixpoint map_set (m : MetricMap) (k : string) (v : PerformanceMetric) : MetricMap :=
  match m with
  | [] => [(k, v)]
  | (k', v') :: r =>
      if String.eqb k k' then (k, v) :: r else (k', v') :: map_set r k v
  end.

Definition map_values (m : MetricMap) : list PerformanceMetric := map snd m.

(** [class PerformanceMonitor]: its two private fields. *)
Record PerformanceMonitor : Type := mkMonitor {
  metrics : MetricMap;
  isEnabled : bool
}.

(** A line written to the console.  The numeric payload is kept as a
    number instead of its [toFixed(2)] rendering. *)
Inductive LogEntry : Type :=
| LogMetricEnd (metricName : string) (d : Q)   (* `${metricName}: ${duration}ms` *)
| LogGroup (title : string)
| LogGroupEnd
| LogPageLoad (t : Q)
| LogLCP (t : Q)
| LogText (s : string)
| LogCustomMetric (metricName : string) (d : option Q)
| LogError (label : string) (e : Thrown).

(** The part of the browser the module reads and writes: the singleton
    [performanceMonitor], the value [performance.now()] currently returns
    and the console. *)
Record Env : Type := mkEnv {
  monitor : PerformanceMonitor;
  clock : Q;
  console : list LogEntry
}.

Definition with_metrics (e : Env) (m : MetricMap) : Env :=
  mkEnv (mkMonitor m (isEnabled (monitor e))) (clock e) (console e).

Definition log (e : Env) (l : LogEntry) : Env :=
  mkEnv (monitor e) (clock e) (console e ++ [l]).

(** [new PerformanceMonitor()] with [process.env.NODE_ENV = node_env];
    [None] is an unset variable. *)
Definition new_monitor (node_env : option string) : PerformanceMonitor :=
  mkMonitor []
    match node_env with
    | Some v => String.eqb v "development"
    | None => false
    end.

Definition init_env (node_env : option string) (t0 : Q) : Env :=
  mkEnv (new_monitor node_env) t0 [].

(** ** The monad of asynchronous computations over [Env] *)

Definition Async (A : Type) : Type := Env -> Outcome A * Env.

Definition async_ret {A} (a : A) : Async A := fun e => (Resolved a, e).

Definition async_bind {A B} (c : Async A) (k : A -> Async B) : Async B :=
  fun e =>
    match c e with
    | (Resolved a, e') => k a e'
    | (Rejected x, e') => (Rejected x, e')
    | (Pending, e') => (Pending, e')
    end.

Definition async_throw {A} (x : Thrown) : Async A := fun e => (Rejected x, e).

(** [try { c } catch (error) { h error }]. *)
Definition async_catch {A} (c : Async A) (h : Thrown -> Async A) : Async A :=
  fun e =>
    match c e with
    | (Rejected x, e') => h x e'
    | r => r
    end.

#[export] Instance Monad_Async : Monad Async :=
  {| ret := @async_ret; bind := @async_bind |}.

#[export] Instance MonadExc_Async : MonadExc Thrown Async :=
  {| raise := @async_throw; catch := @async_catch |}.

(** ** The methods *)

(** [start(metricName)]. *)
Definition start (metricName : string) : Async unit :=
  fun e =>
    if negb (isEnabled (monitor e)) then (Resolved tt, e)
    else
      (Resolved tt,
       with_metrics e
         (map_set (metrics (monitor e)) metricName
            (mkMetric metricName (clock e) None None))).

(** [end(metricName)]: the duration, or [undefined]. *)
Definition end_ (metricName : string) : Async (option Q) :=
  fun e =>
    if negb (isEnabled (monitor e)) then (Resolved None, e)
    else
      match map_get (metrics (monitor e)) metricName with
      | Some metric =>
          let endTime := clock e in
          let duration := endTime - startTime metric in
          let metric' :=
            mkMetric (name metric) (startTime metric) (Some endTime) (Some duration) in
          let e1 := log e (LogMetricEnd metricName duration) in
          (Resolved (Some duration),
           with_metrics e1 (map_set (metrics (monitor e1)) metricName metric'))
      | None => (Resolved None, e)
      end.

(** [getMetrics()]: the metrics whose duration is truthy. *)
Definition getMetrics (e : Env) : list PerformanceMetric :=
  filter (fun metric => truthy_num (duration metric))
         (map_values (metrics (monitor e))).

(** [clear()]. *)
Definition clear : Async unit :=
  fun e => (Resolved tt, with_metrics e []).

(** The verdict [logPerformanceReport] prints for an LCP value. *)
Definition lcp_assessment (lcp : Q) : LogEntry :=
  if Qlt_le_dec lcp 2500 then LogText "LCP is GOOD (< 2.5s)"
  else if Qlt_le_dec lcp 4000 then LogText "LCP needs improvement (2.5s - 4s)"
  else LogText "LCP is POOR (> 4s)".

Definition say (l : LogEntry) : Async unit := fun e => (Resolved tt, log e l).

Fixpoint say_all (ls : list LogEntry) : Async unit :=
  match ls with
  | [] => ret tt
  | l :: r => say l ;; say_all r
  end.

(** The "Custom metrics" block of [logPerformanceReport]. *)
Definition logCustomMetrics : Async unit :=
  fun e =>
    let customMetrics := getMetrics e in
    if (0 <? List.length customMetrics)%nat
    then
      (say (LogGroup "Custom Metrics") ;;
       say_all (map (fun m => LogCustomMetric (name m) (duration m))
                    customMetrics) ;;
       say LogGroupEnd) e
    else (Resolved tt, e).

(** The body of [logPerformanceReport] past its guard.  [pageLoadTime] is
    what [getPageLoadTime()] returns and [lcp] what awaiting [getLCP()]
    yields; the observer behind it may never fire. *)
Definition reportBody (pageLoadTime : option Q) (lcp : Outcome Q) : Async unit :=
  say (LogGroup "Performance Report") ;;
  match pageLoadTime with
  | Some t => if truthy_num pageLoadTime then say (LogPageLoad t) else ret tt
  | None => ret tt
  end ;;
  catch (lcp <- (fun e => (lcp, e)) ;;
         say (LogLCP lcp) ;;
         say (lcp_assessment lcp))
        (fun _ => say (LogText "Could not measure LCP")) ;;
  logCustomMetrics ;;
  say LogGroupEnd.

(** [logPerformanceReport()]. *)
Definition logPerformanceReport (pageLoadTime : option Q) (lcp : Outcome Q)
  : Async unit :=
  fun e =>
    if negb (isEnabled (monitor e)) then (Resolved tt, e)
    else reportBody pageLoadTime lcp e.

(** [measureApiCall(name, apiCall)]. *)
Definition measureApiCall {T} (name : string) (apiCall : Async T) : Async T :=
  start ("api-" ++ name) ;;
  catch (result <- apiCall ;;
         end_ ("api-" ++ name) ;;
         ret result)
        (fun error =>
           end_ ("api-" ++ name) ;;
           raise error).

(** ** Histories of the singleton

    The fields of the monitor are private: after construction they only
    change through its methods.  A history is a sequence of method calls
    and of clock readings moving on. *)
Inductive Call : Type :=
| CallStart (metricName : string)
| CallEnd (metricName : string)
| CallClear
| CallLogReport (pageLoadTime : option Q) (lcp : Outcome Q)
| Tick (t : Q).

Definition step (e : Env) (c : Call) : Env :=
  match c with
  | CallStart n => snd (start n e)
  | CallEnd n => snd (end_ n e)
  | CallClear => snd (clear e)
  | CallLogReport p l => snd (logPerformanceReport p l e)
  | Tick t => mkEnv (monitor e) t (console e)
  end.

Definition run (calls : list Call) (e : Env) : Env := fold_left step calls e.

(** A disabled monitor with an empty map and a silent console. *)
Definition quiet (e : Env) : Prop :=
  isEnabled (monitor e) = false /\ metrics (monitor e) = [] /\ console e = [].

End Performance.

(* ===================================================================== *)
(** * components/UploadSection.tsx *)
(* ===================================================================== *)

Module Upload.

(** The fields of a DOM [File] the component reads. *)
Record File : Type := mkFile {
  fileName : string;
  type : string;     (* MIME type *)
  size : N           (* bytes *)
}.

(** The argument of [toast({...})]. *)
Record Toast : Type := mkToast {
  title : string;
  description : string;
  variant : option string
}.

(** What a call of [handleFiles] does to the outside: toasts shown and
    calls of the [onImageUpload] prop, in program order. *)
Inductive Effect : Type :=
| ToastShown (t : Toast)
| ImageUploaded (file : File) (imageUrl : string).

Definition isImage (file : File) : bool := startsWith (type file) "image/".

(** [10 * 1024 * 1024], the 10MB limit. *)
Definition maxSize : N := 10 * 1024 * 1024.

Definition invalidTypeToast : Toast :=
  mkToast "Invalid file type"
          "Please select an image file (JPG, PNG, etc.)"
          (Some "destructive").

Definition tooLargeToast : Toast :=
  mkToast "File too large"
          "Please select an image smaller than 10MB"
          (Some "destructive").

Definition successToast : Toast :=
  mkToast "Image uploaded successfully" "AI analysis is starting..." None.

(** [handleFiles(files)].  [createObjectURL] is the browser's
    [URL.createObjectURL]. *)
Definition handleFiles (createObjectURL : File -> string) (files : list File)
  : list Effect :=
  match find isImage files with
  | None => [ToastShown invalidTypeToast]
  | Some imageFile =>
      if (maxSize <? size imageFile)%N
      then [ToastShown tooLargeToast]
      else
        let imageUrl := createObjectURL imageFile in
        [ImageUploaded imageFile imageUrl; ToastShown successToast]
  end.

(** The calls of [onImageUpload] among the effects. *)
Definition uploads (es : list Effect) : list (File * string) :=
  flat_map (fun e => match e with
                     | ImageUploaded f u => [(f, u)]
                     | ToastShown _ => []
                     end) es.

(** The titles of the toasts among the effects. *)
Definition toastTitles (es : list Effect) : list string :=
  flat_map (fun e => match e with
                     | ToastShown t => [title t]
                     | ImageUploaded _ _ => []
                     end) es.

(** The formats the upload hint names: JPG, PNG, JPEG. *)
Definition isJpgPngJpeg (file : File) : bool :=
  String.eqb (type file) "image/jpeg" ||
  String.eqb (type file) "image/jpg" ||
  String.eqb (type file) "image/png".

(** Sample inputs: an object-URL scheme and a few files. *)
Definition blobUrl (f : File) : string := "blob:http://localhost:8080/" ++ fileName f.

Definition scanJpeg : File := mkFile "scan.jpg" "image/jpeg" 10485760.
Definition hugePng : File := mkFile "huge.png" "image/png" 10485761.
Definition scanGif : File := mkFile "scan.gif" "image/gif" 2048.
Definition notesTxt : File := mkFile "notes.txt" "text/plain" 12.
Definition reportPdf : File := mkFile "report.pdf" "application/pdf" 4096.

End Upload.

(* ===================================================================== *)
(** * components/ResultsSection.tsx *)
(* ===================================================================== *)

Module Results.

(** [PredictionResult] of [@/types], with the fields [Index.tsx] fills.
    Only [disease] and [confidence] are present in every result. *)
Record PredictionResult : Type := mkResult {
  disease : string;
  confidence : Q;
  heatmap : option string;                    (* base64, [null] or absent *)
  processingTime : option Q;
  imageQuality : option string;
  allPredictions : option (list (string * Q))
}.

(** What a click on a button does. *)
Inductive ClickAction : Type :=
| OpenHeatmapWindow (windowTitle detected : string) (confidencePct : Z)
                    (imgSrc : string)
| ShowNotice (message : string)
| DownloadFile (href filename : string).

Record Attrs : Type := mkAttrs {
  className : string;
  disabled : bool;
  value : option Q;
  onClick : option ClickAction
}.

Definition noAttrs : Attrs := mkAttrs "" false None None.
Definition cls (c : string) : Attrs := mkAttrs c false None None.

(** The rendered tree.  Static Tailwind class lists are left out; class
    names are kept where they are computed from the result. *)
Inductive VNode : Type :=
| Text (s : string)
| Elem (tag : string) (attrs : Attrs) (children : list VNode).

Definition lower_ascii (c : ascii) : ascii :=
  let n := nat_of_ascii c in
  if ((65 <=? n) && (n <=? 90))%nat then ascii_of_nat (n + 32) else c.

(** [String.prototype.toLowerCase]. *)
Fixpoint toLowerCase (s : string) : string :=
  match s with
  | EmptyString => EmptyString
  | String c r => String (lower_ascii c) (toLowerCase r)
  end.

Definition nl : string := String (ascii_of_nat 10) "".

(** [Math.round(result.confidence * 100)]. *)
Definition percent (c : Q) : Z := Math_round (c * 100).

(** [generatePDFReport]: the link it builds and clicks. *)
Definition generatePDFReport (result : option PredictionResult) (today : string)
  : ClickAction :=
  DownloadFile
    ("data:text/plain;charset=utf-8,AI Eye Scan Report" ++ nl ++ nl ++ "Disease: "
       ++ match result with Some r => disease r | None => "undefined" end
       ++ nl ++ "Confidence: "
       ++ match result with
          | Some r => if negb (Qeq_bool (confidence r) 0)
                      then Z_toString (percent (confidence r)) else "0"
          | None => "0"
          end
       ++ "%" ++ nl ++ "Date: " ++ today)
    "eye-scan-report.txt".

Definition getResultColor (disease : string) : string :=
  if String.eqb (toLowerCase disease) "normal" then "text-neon-green"
  else if includes (toLowerCase disease) "diabetic" then "text-neon-orange"
  else "text-neon-pink".

Definition getResultIcon (disease : string) : string :=
  if String.eqb (toLowerCase disease) "normal" then "CheckCircle2"
  else "AlertCircle".

(** The [onClick] of the heatmap button. *)
Definition heatmapClick (result : PredictionResult) : ClickAction :=
  match heatmap result with
  | Some h =>
      if truthy_str (heatmap result)
      then OpenHeatmapWindow ("AI Heatmap Analysis - " ++ disease result)
                             (disease result)
                             (percent (confidence result))
                             ("data:image/png;base64," ++ h)
      else ShowNotice "Heatmap not available for this prediction"
  | None => ShowNotice "Heatmap not available for this prediction"
  end.

(** The heatmap-viewer button. *)
Definition heatmapButton (result : PredictionResult) : VNode :=
  Elem "Button"
       (mkAttrs "" (negb (truthy_str (heatmap result))) None
                (Some (heatmapClick result)))
       [Elem "Eye" noAttrs [];
        Text (if truthy_str (heatmap result)
              then "View AI Heatmap" else "Heatmap Unavailable")].

Definition downloadButton (result : PredictionResult) (today : string) : VNode :=
  Elem "Button"
       (mkAttrs "" false None (Some (generatePDFReport (Some result) today)))
       [Elem "Download" noAttrs []; Text "Download Report"].

Definition diseaseHeading (result : PredictionResult) : VNode :=
  Elem "h3" (cls ("text-2xl font-bold mb-2 " ++ getResultColor (disease result)))
       [Text (disease result)].

Definition confidenceBadge (result : PredictionResult) : VNode :=
  Elem "Badge" noAttrs
       [Text "AI Confidence: ";
        Text (Z_toString (percent (confidence result)));
        Text "%"].

Definition confidenceScore (result : PredictionResult) : VNode :=
  Elem "div" noAttrs
       [Elem "div" noAttrs
             [Elem "span" noAttrs [Text "Confidence Score"];
              Elem "span" noAttrs
                   [Text (Z_toString (percent (confidence result))); Text "%"]];
        Elem "Progress" (mkAttrs "" false (Some (confidence result * 100)) None) []].

(** The main result card, with the heatmap button as a parameter. *)
Definition mainCardWith (button : VNode) (result : PredictionResult)
                        (today : string) : VNode :=
  Elem "Card" noAttrs
       [Elem "CardHeader" noAttrs
             [Elem "CardTitle" noAttrs
                   [Elem (getResultIcon (disease result))
                         (cls ("w-6 h-6 " ++ getResultColor (disease result))) [];
                    Text "Detection Result"]];
        Elem "CardContent" noAttrs
             [Elem "div" noAttrs [diseaseHeading result; confidenceBadge result];
              confidenceScore result;
              Elem "div" noAttrs [button; downloadButton result today]]].

Definition detailRow (label : string) (v : VNode) : VNode :=
  Elem "div" noAttrs [Elem "span" noAttrs [Text label]; v].

(** The "Analysis Details" card. *)
Definition detailsCard (result : PredictionResult) (today : string) : VNode :=
  Elem "Card" noAttrs
       [Elem "CardHeader" noAttrs
             [Elem "CardTitle" noAttrs
                   [Elem "TrendingUp" noAttrs []; Text "Analysis Details"]];
        Elem "CardContent" noAttrs
             [Elem "div" noAttrs
                   [detailRow "Model Used" (Elem "Badge" noAttrs [Text "EfficientNetB0"]);
                    detailRow "Processing Time" (Elem "span" noAttrs [Text "2.3s"]);
                    detailRow "Image Quality" (Elem "span" noAttrs [Text "Excellent"]);
                    detailRow "Analysis Date" (Elem "span" noAttrs [Text today])];
              Elem "div" noAttrs
                   [Elem "h4" noAttrs [Text "Recommendation"];
                    Elem "p" noAttrs
                         [Text (if String.eqb (toLowerCase (disease result)) "normal"
                                then "Your retinal scan appears normal. Continue regular eye exams as recommended by your eye care professional."
                                else "Please consult with an eye care professional for proper evaluation and treatment options. This AI analysis is for informational purposes only.")]]]].

Definition resultGridWith (button : VNode) (result : PredictionResult)
                          (today : string) : VNode :=
  Elem "div" noAttrs [mainCardWith button result today; detailsCard result today].

(** [{result && (...)}]. *)
Definition resultGrid (result : PredictionResult) (today : string) : VNode :=
  resultGridWith (heatmapButton result) result today.

(** [{isLoading && (...)}]. *)
Definition loadingCard : VNode :=
  Elem "Card" noAttrs
       [Elem "CardContent" noAttrs
             [Elem "div" (cls "animate-pulse space-y-4")
                   [Elem "div" noAttrs []; Elem "div" noAttrs []; Elem "div" noAttrs []]]].

Definition sectionHeader : VNode :=
  Elem "div" noAttrs
       [Elem "h2" noAttrs [Text "Analysis Results"];
        Elem "p" noAttrs [Text "AI-powered eye disease detection results"]].

(** [ResultsSection({ result, uploadedImage, isLoading })].  [today] is
    [new Date().toLocaleDateString()]; [None] is a [null] render. *)
Definition ResultsSection (result : option PredictionResult)
                          (uploadedImage : option string)
                          (isLoading : bool) (today : string) : option VNode :=
  if negb (truthy_str uploadedImage)
     && match result with None => true | Some _ => false end
  then None
  else
    Some (Elem "section" noAttrs
            [Elem "div" noAttrs
               ([sectionHeader]
                  ++ (if isLoading then [loadingCard] else [])
                  ++ match result with
                     | Some r => [resultGrid r today]
                     | None => []
                     end)]).

(** [n] occurs in the tree [t]. *)
Inductive occurs (n : VNode) : VNode -> Prop :=
| occurs_here : occurs n n
| occurs_child tag attrs children c :
    In c children -> occurs n c -> occurs n (Elem tag attrs children).

(** The disabled elements of a tree, in document order. *)
Fixpoint disabledNodes (t : VNode) : list VNode :=
  match t with
  | Text _ => []
  | Elem tag attrs children =>
      ((if disabled attrs then [t] else []) ++ flat_map disabledNodes children)%list
  end.

(** The heatmap button of a result without heatmap: disabled, labelled
    'Heatmap Unavailable'. *)
Definition unavailableButton : VNode :=
  Elem "Button"
       (mkAttrs "" true None
                (Some (ShowNotice "Heatmap not available for this prediction")))
       [Elem "Eye" noAttrs []; Text "Heatmap Unavailable"].

(** Replace the [heatmap] field. *)
Definition withHeatmap (r : PredictionResult) (h : option string) : PredictionResult :=
  mkResult (disease r) (confidence r) h (processingTime r) (imageQuality r)
           (allPredictions r).

End Results.

(* ===================================================================== *)
(** * pages/Index.tsx *)
(* ===================================================================== *)

Module IndexPage.

Import Performance Results.

(** The three [useState] cells of [Index]. *)
Record IndexState : Type := mkIndexState {
  uploadedImage : option string;
  predictionResult : option PredictionResult;
  isLoading : bool
}.

Definition setUploadedImage (v : option string) (s : IndexState) : IndexState :=
  mkIndexState v (predictionResult s) (isLoading s).

Definition setPredictionResult (v : option PredictionResult) (s : IndexState)
  : IndexState :=
  mkIndexState (uploadedImage s) v (isLoading s).

Definition setIsLoading (v : bool) (s : IndexState) : IndexState :=
  mkIndexState (uploadedImage s) (predictionResult s) v.

(** A [FormData] value. *)
Inductive FormValue : Type :=
| FormFile (f : Upload.File)
| FormString (s : string).

Record Request : Type := mkRequest {
  url : string;
  method : string;
  body : list (string * FormValue)
}.

(** The JSON body of a prediction response. *)
Record ApiData : Type := mkApiData {
  data_disease : string;
  data_confidence : Q;
  data_heatmap : option string;
  data_processing_time : option Q;
  data_image_quality : option string;
  data_all_predictions : option (list (string * Q))
}.

(** The fields of a [Response] the page reads. *)
Record Response : Type := mkResponse {
  ok : bool;
  status : Z;
  json : Async ApiData
}.

(** The callback given to [measureApiCall].  [fetch] is the browser's. *)
Definition predictCall (fetch : Request -> Async Response)
                       (imageFile : Upload.File) : Async PredictionResult :=
  let formData := [("image", FormFile imageFile);
                   ("generate_heatmap", FormString "true")] in
  response <- fetch (mkRequest "http://localhost:5000/api/predict" "POST" formData) ;;
  if negb (ok response)
  then raise (mkThrown "Error"
                ("API request failed with status: " ++ Z_toString (status response)))
  else
    data <- json response ;;
    ret (mkResult (data_disease data) (data_confidence data) (data_heatmap data)
                  (data_processing_time data) (data_image_quality data)
                  (data_all_predictions data)).

Definition mockResult (d : string) (c : Q) : PredictionResult :=
  mkResult d c None None None None.

Definition mockResults : list PredictionResult :=
  [mockResult "Diabetic Retinopathy" (89 # 100);
   mockResult "Glaucoma" (76 # 100);
   mockResult "Cataract" (92 # 100);
   mockResult "Normal" (95 # 100)].

(** [mockResults[Math.floor(Math.random() * mockResults.length)]], with
    [random] the value [Math.random()] returns. *)
Definition pickMock (random : Q) : option PredictionResult :=
  match Math_floor (random * inject_Z (Z.of_nat (List.length mockResults))) with
  | Z.neg _ => None
  | i => nth_error mockResults (Z.to_nat i)
  end.

(** [handleImageUpload(imageFile, imageUrl)]: the promise outcome, the
    page state and the browser state it leaves. *)
Definition handleImageUpload (fetch : Request -> Async Response) (random : Q)
                             (imageFile : Upload.File) (imageUrl : string)
                             (s : IndexState) (e : Env)
  : Outcome unit * IndexState * Env :=
  let s1 := setIsLoading true (setUploadedImage (Some imageUrl) s) in
  match measureApiCall "image-prediction" (predictCall fetch imageFile) e with
  | (Resolved result, e1) =>
      (Resolved tt, setIsLoading false (setPredictionResult (Some result) s1), e1)
  | (Rejected error, e1) =>
      let e2 := log e1 (LogError "Error uploading image:" error) in
      let s2 := setIsLoading false s1 in
      let result := pickMock random in
      (Resolved tt, setPredictionResult result s2, e2)
  | (Pending, e1) => (Pending, s1, e1)
  end.

(** [resetAnalysis()]. *)
Definition resetAnalysis (s : IndexState) : IndexState :=
  setIsLoading false (setPredictionResult None (setUploadedImage None s)).

Definition initialState : IndexState := mkIndexState None None false.

(** Sample behaviours of [fetch]: the server answers with an error
    status (its body is not read), or the network is down. *)
Definition fetchStatus (st : Z) : Request -> Async Response :=
  fun _ e =>
    (Resolved (mkResponse false st
                 (fun e' => (Rejected (mkThrown "SyntaxError" "Unexpected token"), e'))),
     e).

Definition fetchNetworkError : Request -> Async Response :=
  fun _ e => (Rejected (mkThrown "TypeError" "Failed to fetch"), e).

(** ... or the server answers 200 with [data] as its JSON body. *)
Definition fetchOk (data : ApiData) : Request -> Async Response :=
  fun _ e => (Resolved (mkResponse true 200 (fun e' => (Resolved data, e'))), e).

End IndexPage.

(* ===================================================================== *)
(** * components/ChatBot.tsx *)
(* ===================================================================== *)

Module Chat.

Import Results.

Inductive Sender : Type := user | bot.

Definition Sender_eqb (a b : Sender) : bool :=
  match a, b with
  | user, user | bot, bot => true
  | _, _ => false
  end.

(** [interface Message]; [timestamp] in milliseconds since the epoch. *)
Record Message : Type := mkMessage {
  id : string;
  type : Sender;
  content : string;
  timestamp : Z
}.

(** [const FAQ], in the order [Object.entries] enumerates it. *)
Definition FAQ : list (string * string) :=
  [("diseases", "Our AI can help detect several eye diseases, including diabetic retinopathy, glaucoma, and cataracts. Upload a clear retinal image to get started.");
   ("what diseases", "The main diseases detected by our AI are diabetic retinopathy, glaucoma, and cataracts. We are working to expand this list in the future!");
   ("can be detected", "Currently, our AI detects diabetic retinopathy, glaucoma, and cataracts from retinal images.");
   ("detect", "Our AI is designed to detect diabetic retinopathy, glaucoma, and cataracts. Please upload a retinal image for analysis.");
   ("diabetic retinopathy", "Diabetic retinopathy is a diabetes complication that affects eyes. It's caused by damage to blood vessels in the retina. Our AI can detect signs of this condition, but professional diagnosis is essential.");
   ("glaucoma", "Glaucoma is a group of eye conditions that damage the optic nerve, often due to high eye pressure. Early detection is crucial as it can cause gradual vision loss without symptoms.");
   ("cataract", "Cataracts cause clouding of the eye's natural lens, leading to blurry vision. They're common with aging and can be treated with surgery. Our AI can identify cataract formations in retinal images.");
   ("how does ai work", "Our AI uses a deep learning model (EfficientNetB0) trained on thousands of retinal images. It analyzes patterns in your uploaded image to detect signs of various eye diseases with 89% accuracy.");
   ("how ai works", "Our AI uses advanced deep learning to analyze retinal images and detect diseases with high accuracy.");
   ("accuracy", "Our AI model achieves 89% accuracy on validation datasets. However, results should always be confirmed by a qualified eye care professional.");
   ("ai accuracy", "The AI is about 89% accurate on test data, but always consult a doctor for a final diagnosis.");
   ("upload image", "To upload an image: 1) Click the upload area or drag & drop your retinal image 2) Ensure it's a clear fundus photograph 3) Wait for AI analysis 4) Review results and download report if needed.");
   ("how to upload", "Click the upload area or drag and drop your retinal image. Make sure the image is clear for best results.");
   ("how to use", "Upload a clear retinal image, wait for the AI to analyze it, and review the results. You can also ask me about eye diseases or the AI itself!");
   ("hello", "Hello! How can I assist you with eye disease detection or using our AI tool today?");
   ("hi", "Hi there! Ask me anything about eye diseases, our AI, or how to use this tool.");
   ("help", "I'm here to help! You can ask about diseases, how the AI works, or how to use the tool.")].

Definition greeting : Message :=
  mkMessage "1" bot
    "Hi! I'm your AI assistant. I can help answer questions about eye diseases, how our AI works, or guide you through using this tool. What would you like to know?"
    0.

(** The [useState] cells [handleSendMessage] reads and writes. *)
Record ChatState : Type := mkChat {
  messages : list Message;
  inputValue : string;
  loading : bool
}.

Definition initialChat : ChatState := mkChat [greeting] "" false.

(** ** Characters

    A [string] holds the UTF-8 bytes of the JavaScript string.  A byte
    that is not part of a well-formed sequence (a lead byte with its
    continuation bytes, in shortest form, up to U+10FFFF) is read as the
    character with that code (its Latin-1 reading), so that U+00A0 is
    recognised both as the two bytes 194, 160 and as the single byte
    160. *)

Definition isCont (a : ascii) : bool :=
  ((128 <=? N_of_ascii a) && (N_of_ascii a <=? 191))%N.

Definition isLead2 (a : ascii) : bool :=
  ((194 <=? N_of_ascii a) && (N_of_ascii a <=? 223))%N.

Definition isLead3 (a : ascii) : bool :=
  ((224 <=? N_of_ascii a) && (N_of_ascii a <=? 239))%N.

Definition isLead4 (a : ascii) : bool :=
  ((240 <=? N_of_ascii a) && (N_of_ascii a <=? 244))%N.

(** The payload of a continuation byte. *)
Definition low6 (a : ascii) : N := (N_of_ascii a - 128)%N.

(** The code points of sequences of two, three and four bytes. *)
Definition code2 (a b : ascii) : N :=
  ((N_of_ascii a - 192) * 64 + low6 b)%N.

Definition code3 (a b c : ascii) : N :=
  ((N_of_ascii a - 224) * 4096 + low6 b * 64 + low6 c)%N.

Definition code4 (a b c d : ascii) : N :=
  ((N_of_ascii a - 240) * 262144 + low6 b * 4096 + low6 c * 64 + low6 d)%N.

(** The characters of a string, each with its bytes and its code
    point. *)
Fixpoint codePoints (s : string) : list (string * N) :=
  match s with
  | EmptyString => []
  | String a r =>
      let single := (String a "", N_of_ascii a) :: codePoints r in
      match r with
      | EmptyString => single
      | String b r1 =>
          if isLead2 a && isCont b
          then (String a (String b ""), code2 a b) :: codePoints r1
          else
            match r1 with
            | EmptyString => single
            | String c r2 =>
                if isLead3 a && isCont b && isCont c
                   && (2048 <=? code3 a b c)%N
                then (String a (String b (String c "")), code3 a b c)
                       :: codePoints r2
                else
                  match r2 with
                  | EmptyString => single
                  | String d r3 =>
                      if isLead4 a && isCont b && isCont c && isCont d
                         && (65536 <=? code4 a b c d)%N
                         && (code4 a b c d <=? 1114111)%N
                      then (String a (String b (String c (String d ""))),
                            code4 a b c d) :: codePoints r3
                      else single
                  end
            end
      end
  end.

(** White space in the sense of [String.prototype.trim]: the WhiteSpace
    and LineTerminator code points of ECMAScript -- TAB, LF, VT, FF, CR,
    SP, NBSP, U+1680, U+2000 to U+200A, LS, PS, U+202F, U+205F, U+3000
    and the byte order mark U+FEFF. *)
Definition isSpace (cp : N) : bool :=
  ((9 <=? cp) && (cp <=? 13)
   || (cp =? 32) || (cp =? 160) || (cp =? 5760)
   || (8192 <=? cp) && (cp <=? 8202)
   || (cp =? 8232) || (cp =? 8233) || (cp =? 8239) || (cp =? 8287)
   || (cp =? 12288) || (cp =? 65279))%N.

(** Drop the longest prefix, and the longest suffix, of elements that
    satisfy [p]. *)
Fixpoint dropWhile {A} (p : A -> bool) (l : list A) : list A :=
  match l with
  | [] => []
  | x :: r => if p x then dropWhile p r else l
  end.

Fixpoint dropWhileEnd {A} (p : A -> bool) (l : list A) : list A :=
  match l with
  | [] => []
  | x :: r =>
      match dropWhileEnd p r with
      | [] => if p x then [] else [x]
      | r' => x :: r'
      end
  end.

(** The bytes of a list of characters. *)
Definition joinChars (l : list (string * N)) : string :=
  fold_right (fun ch acc => fst ch ++ acc) "" l.

(** [String.prototype.trim]: the string without its leading and trailing
    white space. *)
Definition trim (s : string) : string :=
  joinChars (dropWhileEnd (fun ch => isSpace (snd ch))
               (dropWhile (fun ch => isSpace (snd ch)) (codePoints s))).

(** [\w]: a letter, a digit or the underscore. *)
Definition isWordChar (c : ascii) : bool :=
  let n := nat_of_ascii c in
  ((48 <=? n) && (n <=? 57) || (65 <=? n) && (n <=? 90)
   || (97 <=? n) && (n <=? 122) || (n =? 95))%nat.

(** [s.split(/\W+/).filter(Boolean)]: the maximal runs of word
    characters of [s]; [cur] is the run being read. *)
Fixpoint wordRuns (s : string) (cur : string) : list string :=
  match s with
  | EmptyString => if String.eqb cur "" then [] else [cur]
  | String c r =>
      if isWordChar c then wordRuns r (cur ++ String c "")
      else (if String.eqb cur "" then [] else [cur]) ++ wordRuns r ""
  end.

Definition splitWords (s : string) : list string := wordRuns s "".

(** [Array.prototype.includes] on strings. *)
Definition arrayIncludes (l : list string) (x : string) : bool :=
  existsb (String.eqb x) l.

(** The test of the FAQ loop for one [keyword]. *)
Definition matchesKeyword (lowerInput : string) (tokens : list string)
                          (keyword : string) : bool :=
  let keywordTokens := splitWords keyword in
  existsb (fun token => arrayIncludes keywordTokens token) tokens
  || includes lowerInput keyword
  || existsb (fun kt => includes lowerInput kt) keywordTokens.

(** The [for ... of Object.entries(FAQ)] loop: the first matching
    response, or [null]. *)
Definition findResponse (input : string) : option string :=
  let lowerInput := toLowerCase input in
  let tokens := splitWords lowerInput in
  match find (fun kv => matchesKeyword lowerInput tokens (fst kv)) FAQ with
  | Some (_, response) => Some response
  | None => None
  end.

Definition fallback : string :=
  "Sorry, I couldn't find an answer to that. Please try rephrasing your question or ask about eye diseases, AI, or how to use this tool.".

Definition stillLearning : string :=
  "I'm still learning! Please ask about eye diseases, our AI, or how to use this tool.".

(** [messages.filter(m => m.type === 'bot').slice(-1)[0]?.content]. *)
Definition lastBotMsg (msgs : list Message) : option string :=
  match rev (filter (fun m => Sender_eqb (type m) bot) msgs) with
  | m :: _ => Some (content m)
  | [] => None
  end.

Definition nextBotMsg (msgs : list Message) (input : string) : string :=
  let botResponse := findResponse input in
  match botResponse with
  | Some r => if truthy_str botResponse then r
              else if match lastBotMsg msgs with
                      | Some l => String.eqb l fallback
                      | None => false
                      end
                   then stillLearning else fallback
  | None => if match lastBotMsg msgs with
               | Some l => String.eqb l fallback
               | None => false
               end
            then stillLearning else fallback
  end.

(** A queued state update; [setMessages] is always called with an
    updater function. *)
Inductive Update : Type :=
| SetMessages (f : list Message -> list Message)
| SetLoading (b : bool)
| SetInputValue (s : string).

Definition applyUpdate (u : Update) (s : ChatState) : ChatState :=
  match u with
  | SetMessages f => mkChat (f (messages s)) (inputValue s) (loading s)
  | SetLoading b => mkChat (messages s) (inputValue s) b
  | SetInputValue v => mkChat (messages s) v (loading s)
  end.

Definition applyUpdates (us : list Update) (s : ChatState) : ChatState :=
  fold_left (fun acc u => applyUpdate u acc) us s.

(** The four clock reads of one send: [Date.now()] and [new Date()]
    before the pause, and again after it. *)
Record Clock : Type := mkClock {
  nowUser : Z; dateUser : Z;
  nowBot : Z; dateBot : Z
}.

Definition userMessage (clk : Clock) (input : string) : Message :=
  mkMessage (Z_toString (nowUser clk)) user input (dateUser clk).

Definition botMessage (clk : Clock) (msgs : list Message) (input : string) : Message :=
  mkMessage (Z_toString (nowBot clk + 1)) bot (nextBotMsg msgs input) (dateBot clk).

(** [handleSendMessage()], run in the render whose state is [s]: the
    updates it queues before the 1200ms pause and those it queues after. *)
Definition handleSendMessage (clk : Clock) (s : ChatState)
  : list Update * list Update :=
  if String.eqb (trim (inputValue s)) "" || loading s then ([], [])
  else
    ([SetMessages (fun prev => (prev ++ [userMessage clk (inputValue s)])%list);
      SetLoading true],
     [SetMessages (fun prev => (prev ++ [botMessage clk (messages s) (inputValue s)])%list);
      SetLoading false;
      SetInputValue ""]).

End Chat.

(* ===================================================================== *)
(** * The serving core (backend/utils), modelled from its contract *)
(* ===================================================================== *)

Module Core.

(** Modelled from the spec: the error taxonomy of section 7 (the Python
    backend that raises these is not among the sources). *)
Inductive CoreError : Type :=
| InvalidImageError
| UnsupportedFormatError
| ModelUnavailableError.

Inductive Result (A : Type) : Type :=
| Ok (a : A)
| Err (e : CoreError).

Arguments Ok {A} a.
Arguments Err {A} e.

(** Modelled from the spec: RawImage of section 3, an opaque byte buffer
    and its declared MIME type. *)
Record RawImage : Type := mkRaw { bytes : list Byte.byte; mime : string }.

(** Modelled from the spec: the pixel grid the decoder of step 1 yields:
    8-bit samples, any channel count. *)
Record Decoded : Type := mkDecoded {
  d_height : nat;
  d_width : nat;
  d_channels : nat;
  sample : nat -> nat -> nat -> Byte.byte      (* row, column, channel *)
}.

Definition RGB : Type := (Byte.byte * Byte.byte * Byte.byte)%type.

(** Modelled from the spec: an image in the canonical 3-channel colour
    space of step 1. *)
Record Image3 : Type := mkImage3 {
  height : nat;
  width : nat;
  pixel : nat -> nat -> RGB                    (* row, column *)
}.

(** Modelled from the spec: QualityReport of section 3. *)
Inductive Verdict : Type := Poor | Fair | Good | Excellent.

Record QualityReport : Type := mkQuality {
  sharpness : Q;
  brightness : Q;
  contrast : Q;
  verdict : Verdict
}.

(** Modelled from the spec: NormalizedTensor of section 3, as rows of
    columns of channel values. *)
Definition NormalizedTensor : Type := list (list (list Q)).

Definition targetSize : nat := 224.

Definition chan (c : nat) (p : RGB) : Byte.byte :=
  match p, c with
  | (r, _, _), O => r
  | (_, g, _), S O => g
  | (_, _, b), _ => b
  end.

Definition byteQ (b : Byte.byte) : Q := inject_Z (Z.of_N (Byte.to_N b)).

(** Saturating conversion of a number to an 8-bit sample. *)
Definition toByte (x : Q) : Byte.byte :=
  let z := Math_round x in
  let z' := if (z <? 0)%Z then 0%Z else if (255 <? z)%Z then 255%Z else z in
  match Byte.of_N (Z.to_N z') with
  | Some b => b
  | None => Byte.x00
  end.

Definition clampQ (lo hi x : Q) : Q :=
  if Qlt_le_dec x lo then lo else if Qlt_le_dec hi x then hi else x.

(** Linear interpolation between [a] and [b]. *)
Definition lerp (t a b : Q) : Q := (1 - t) * a + t * b.

(** Modelled from the spec: step 1 of [preprocess], the conversion of a
    decoded grid to the canonical 3-channel colour space (the decoder and
    the conversion live in backend/utils/image_preprocessor.py, which is
    not among the sources).  Every channel count is converted: with one
    or two channels (grayscale, grayscale with alpha) the gray value is
    replicated, with three or more (colour, colour with alpha, further
    planes) the first three channels are kept; alpha and further channels
    are dropped.  Only a grid without any channel cannot be normalized. *)
Definition toRGB (d : Decoded) : Result Image3 :=
  match d_channels d with
  | 0%nat => Err UnsupportedFormatError
  | 1%nat | 2%nat =>
      Ok (mkImage3 (d_height d) (d_width d)
            (fun y x => let g := sample d y x 0 in (g, g, g)))
  | _ =>
      Ok (mkImage3 (d_height d) (d_width d)
            (fun y x => (sample d y x 0, sample d y x 1, sample d y x 2)))
  end.

(** Modelled from the spec: the bilinear resize of step 4.  The source
    coordinate of output index [i] along an axis of [n] source samples,
    kept inside the source. *)
Definition srcCoord (i n : nat) : Q :=
  clampQ 0 (inject_Z (Z.of_nat (n - 1)))
         ((inject_Z (Z.of_nat i) + (1 # 2)) * inject_Z (Z.of_nat n)
            / inject_Z (Z.of_nat targetSize) - (1 # 2)).

(** Modelled from the spec: the bilinear resize of step 4.  The sample of
    channel [c] at output position [(i, j)]. *)
Definition bilinear (img : Image3) (c i j : nat) : Q :=
  let y := srcCoord i (height img) in
  let x := srcCoord j (width img) in
  let y0 := Z.to_nat (Qfloor y) in
  let x0 := Z.to_nat (Qfloor x) in
  let y1 := Nat.min (y0 + 1) (height img - 1) in
  let x1 := Nat.min (x0 + 1) (width img - 1) in
  let fy := y - inject_Z (Qfloor y) in
  let fx := x - inject_Z (Qfloor x) in
  let v yy xx := byteQ (chan c (pixel img yy xx)) in
  lerp fy (lerp fx (v y0 x0) (v y0 x1)) (lerp fx (v y1 x0) (v y1 x1)).

(** Modelled from the spec: step 4 of [preprocess], "resize (bilinear or
    better) to 224x224; convert to floating point; scale into [0,1]"
    (backend/utils/image_preprocessor.py is not among the sources).
    Floating point is modelled by exact rationals. *)
Definition resizeAndScale (img : Image3) : NormalizedTensor :=
  map (fun i =>
         map (fun j =>
                map (fun c => bilinear img c i j / 255) (seq 0 3))
             (seq 0 targetSize))
      (seq 0 targetSize).

(** Modelled from the spec: a circular boundary found by the detector of
    step 3, with its confidence. *)
Record Circle : Type := mkCircle {
  cx : nat; cy : nat; radius : nat;
  circleConfidence : Q
}.

(** Modelled from the spec: the crop of step 3, the bounding square of
    [c] with [margin], cut to the frame. *)
Definition cropTo (img : Image3) (c : Circle) (margin : nat) : Image3 :=
  let top := (cy c - (radius c + margin))%nat in
  let left := (cx c - (radius c + margin))%nat in
  let bottom := Nat.min (height img) (cy c + radius c + margin + 1) in
  let right := Nat.min (width img) (cx c + radius c + margin + 1) in
  mkImage3 (bottom - top) (right - left)
           (fun y x => pixel img (top + y) (left + x)).

Section Preprocess.

(** Modelled from the spec: the parts of the pipeline the contract names
    without fixing:
    the image codec, the CLAHE-equivalent, the Gaussian blur, the gain
    of the unsharp mask, the circle detector with its threshold and
    margin, and the quality scoring with its thresholds. *)
Variable decode : RawImage -> option Decoded.
Variable clahe : Image3 -> Image3.
Variable gaussianBlur : Image3 -> Image3.
Variable gain : Q.
Variable detectCircle : Image3 -> option Circle.
Variable circleThreshold : Q.
Variable margin : nat.
Variable assessQuality : Image3 -> QualityReport.

(** Modelled from the spec: the unsharp masking of step 2, original minus
    blurred, added back with a gain. *)
Definition unsharpMask (orig blurred : Image3) : Image3 :=
  mkImage3 (height orig) (width orig)
    (fun y x =>
       let f c :=
         let o := byteQ (chan c (pixel orig y x)) in
         let b := byteQ (chan c (pixel blurred y x)) in
         toByte (o + gain * (o - b)) in
       (f 0%nat, f 1%nat, f 2%nat)).

(** Modelled from the spec: step 2, quality enhancement. *)
Definition enhance (img : Image3) : Image3 :=
  let equalized := clahe img in
  unsharpMask equalized (gaussianBlur equalized).

(** Modelled from the spec: step 3, the best-effort region of interest;
    the full frame is kept when no confident circle is found or the crop
    would be empty. *)
Definition cropROI (img : Image3) : Image3 :=
  match detectCircle img with
  | Some c =>
      if Qlt_le_dec circleThreshold (circleConfidence c)
      then
        let cropped := cropTo img c margin in
        if ((0 <? height cropped) && (0 <? width cropped))%nat
        then cropped else img
      else img
  | None => img
  end.

(** Modelled from the spec: [preprocess(rawImage) -> (NormalizedTensor,
    QualityReport)] of section 4.1, whose implementation
    (backend/utils/image_preprocessor.py) is not among the sources:
    decode, convert to 3 channels, enhance, crop to the region of
    interest, resize and scale, and score the quality. *)
Definition preprocess (raw : RawImage)
  : Result (NormalizedTensor * QualityReport) :=
  match decode raw with
  | None => Err InvalidImageError
  | Some d =>
      match toRGB d with
      | Err e => Err e
      | Ok img =>
          Ok (resizeAndScale (cropROI (enhance img)), assessQuality img)
      end
  end.

End Preprocess.

(** "Valid image input": the bytes decode to a pixel grid, of any
    height, width and channel count, that has pixel data, that is at
    least one channel. *)
Definition validImage (decode : RawImage -> option Decoded) (raw : RawImage) : Prop :=
  exists d, decode raw = Some d /\ d_channels d <> 0%nat.

(** The tensor has shape [h] x [w] x [c]. *)
Definition hasShape (h w c : nat) (t : NormalizedTensor) : Prop :=
  List.length t = h /\
  Forall (fun row => List.length row = w /\
                     Forall (fun px => List.length px = c) row) t.

(** Every value of the tensor lies in [0,1]. *)
Definition inUnitRange (t : NormalizedTensor) : Prop :=
  Forall (Forall (Forall (fun v => 0 <= v /\ v <= 1))) t.

(** ** The explanation generator *)

(** Modelled from the spec: the failures section 4.3 names (the Python
    explanation generator is not among the sources). *)
Inductive Failure : Type :=
| LayerNotFound
| NoGradientSupport
| GradientComputationError
| RenderingError.

(** Modelled from the spec: a step of the generator, which may raise. *)
Inductive Attempt (A : Type) : Type :=
| Done (a : A)
| Raised (f : Failure).

Arguments Done {A} a.
Arguments Raised {A} f.

Definition Grid : Type := list (list Q).

(** Modelled from the spec: what the model hands out for a named stage
    (section 9): per channel, the activations and the gradient of the
    predicted class's score. *)
Record Capture : Type := mkCapture {
  activations : list Grid;
  gradients : list Grid
}.

(** Modelled from the spec: the capability interface of a model wrapper
    (section 9). *)
Record Model : Type := mkModel {
  captureStage : string -> NormalizedTensor -> Attempt Capture
}.

(** Modelled from the spec: HeatmapArtifact of section 3, the encoded figure, the strategy that produced the
    map and, for Grad-CAM, the model layer it was computed from. *)
Record HeatmapArtifact : Type := mkArtifact {
  encoded : list Byte.byte;
  strategyUsed : string;
  layerName : option string
}.

Definition Qsum (l : list Q) : Q := fold_right Qplus 0 l.

(** Modelled from the spec: Grad-CAM step 3, the spatial average of a
    grid; zero for an empty grid. *)
Definition spatialMean (g : Grid) : Q :=
  let cells := List.concat g in
  match cells with
  | [] => 0
  | _ => Qsum cells / inject_Z (Z.of_nat (List.length cells))
  end.

Definition scaleGrid (w : Q) (g : Grid) : Grid := map (map (Qmult w)) g.

Fixpoint zipWith {A B C} (f : A -> B -> C) (l1 : list A) (l2 : list B) : list C :=
  match l1, l2 with
  | a :: r1, b :: r2 => f a b :: zipWith f r1 r2
  | _, _ => []
  end.

Definition addGrid (g1 g2 : Grid) : Grid := zipWith (zipWith Qplus) g1 g2.

(** Modelled from the spec: Grad-CAM step 4, the weighted sum of the
    activation channels. *)
Definition weightedSum (ws : list Q) (acts : list Grid) : Grid :=
  match zipWith scaleGrid ws acts with
  | [] => []
  | g :: gs => fold_left addGrid gs g
  end.

(** Modelled from the spec: Grad-CAM step 4, the rectification. *)
Definition relu (g : Grid) : Grid :=
  map (map (fun v => if Qlt_le_dec v 0 then 0 else v)) g.

Definition Qmaximum (l : list Q) : Q :=
  fold_right (fun v m => if Qlt_le_dec m v then v else m) 0 l.

(** Modelled from the spec: Grad-CAM step 5, the normalization to [0,1];
    an all-zero map is left as it is. *)
Definition normalize (g : Grid) : Grid :=
  let m := Qmaximum (List.concat g) in
  if Qeq_bool m 0 then g else map (map (fun v => v / m)) g.

(** Modelled from the spec: a named strategy (section 9), yielding a 2D
    attention map or a failure. *)
Definition Strategy : Type :=
  (string * (Model -> NormalizedTensor -> Image3 -> Attempt Grid))%type.

(** Modelled from the spec: what the generator logs internally. *)
Inductive ExplainLog : Type :=
| StrategyFailed (strategy : string) (why : Failure)
| StrategySucceeded (strategy : string)
| RenderFailed (why : Failure).

Section Explain.

(** Modelled from the spec: the parts section 4.3 names without fixing:
    the late convolutional layer Grad-CAM targets, the pixel-gradient
    proxy, the bilinear upsampling to the image's resolution, and the
    renderer of the multi-panel figure; each may raise. *)
Variable targetLayer : string.
Variable pixelGradient : Image3 -> Attempt Grid.
Variable upsample : Grid -> nat -> nat -> Attempt Grid.
Variable render : Image3 -> Grid -> Attempt (list Byte.byte).

(** Modelled from the spec: the primary strategy, gradient-weighted class
    activation mapping. *)
Definition gradCam (m : Model) (t : NormalizedTensor) (img : Image3) : Attempt Grid :=
  match captureStage m targetLayer t with
  | Raised f => Raised f
  | Done cap =>
      let weights := map spatialMean (gradients cap) in
      let cam := relu (weightedSum weights (activations cap)) in
      upsample (normalize cam) (height img) (width img)
  end.

(** Modelled from the spec: the fallback strategy, the gradient magnitude
    of the pixel intensities. *)
Definition pixelFallback (m : Model) (t : NormalizedTensor) (img : Image3)
  : Attempt Grid :=
  match pixelGradient img with
  | Raised f => Raised f
  | Done g => upsample (normalize g) (height img) (width img)
  end.

(** Modelled from the spec: the ordered list of strategies. *)
Definition strategies : list Strategy :=
  [("grad-cam", gradCam); ("pixel-gradient", pixelFallback)].

(** Modelled from the spec: the strategies are tried in order and the
    first success wins; each failure is caught and logged. *)
Fixpoint firstSuccess (ss : list Strategy) (m : Model) (t : NormalizedTensor)
                      (img : Image3) : option (string * Grid) * list ExplainLog :=
  match ss with
  | [] => (None, [])
  | (name, run) :: rest =>
      match run m t img with
      | Done g => (Some (name, g), [StrategySucceeded name])
      | Raised f =>
          let (r, l) := firstSuccess rest m t img in
          (r, StrategyFailed name f :: l)
      end
  end.

(** Modelled from the spec: the body of [explain], which may raise: the
    rendering error is not yet caught here. *)
Definition explainUnguarded (m : Model) (t : NormalizedTensor) (img : Image3)
  : Attempt (option HeatmapArtifact) * list ExplainLog :=
  match firstSuccess strategies m t img with
  | (None, l) => (Done None, l)
  | (Some (name, g), l) =>
      match render img g with
      | Done bs =>
          (Done (Some (mkArtifact bs name
                         (if String.eqb name "grad-cam"
                          then Some targetLayer else None))), l)
      | Raised f => (Raised f, l)
      end
  end.

(** Modelled from the spec: [explain(model, tensor, originalImage) ->
    Optional<HeatmapArtifact>] of section 4.3, whose implementation
    (backend/utils/visualization.py) is not among the sources: an
    ordered list of strategies, the first success rendered, every
    failure caught, logged and turned into an absent artifact. *)
Definition explain (m : Model) (t : NormalizedTensor) (img : Image3)
  : Attempt (option HeatmapArtifact) * list ExplainLog :=
  match explainUnguarded m t img with
  | (Done r, l) => (Done r, l)
  | (Raised f, l) => (Done None, (l ++ [RenderFailed f])%list)
  end.

End Explain.

(** The strategies the log reports as failed, in order. *)
Definition failedStrategies (l : list ExplainLog) : list string :=
  flat_map (fun e => match e with
                     | StrategyFailed n _ => [n]
                     | _ => []
                     end) l.

End Core.

(* ===================================================================== *)
(** * Further parts of the sources *)
(* ===================================================================== *)

(** utils/performance.ts: the higher-order component and the vocabulary
    used to speak about histories of the monitor. *)
Module PerformanceHoc.

Import Performance.




(** The call [c] may write the entry of metric [n]. *)
Definition touches (n : string) (c : Call) : bool :=
  match c with
  | CallStart m | CallEnd m => String.eqb m n
  | CallClear => true
  | CallLogReport _ _ | Tick _ => false
  end.

(** An entry of the map is coherent: it is filed under its own name, and
    it carries either no end time and no duration, or both, the duration
    being the end time minus the start time. *)
Definition coherent (kv : string * PerformanceMetric) : Prop :=
  name (snd kv) = fst kv
  /\ match endTime (snd kv), duration (snd kv) with
     | None, None => True
     | Some t, Some d => d = t - startTime (snd kv)
     | _, _ => False
     end.

Definition wellFormed (m : MetricMap) : Prop :=
  NoDup (map fst m) /\ Forall coherent m.

(** The call [c] is [start(n)]. *)
Definition starts (n : string) (c : Call) : bool :=
  match c with
  | CallStart m => String.eqb m n
  | _ => false
  end.

(** The line [logPerformanceReport] prints for the page-load time. *)
Definition pageLoadLines (pageLoadTime : option Q) : list LogEntry :=
  match pageLoadTime with
  | Some t => if truthy_num pageLoadTime then [LogPageLoad t] else []
  | None => []
  end.

(** The block [logPerformanceReport] prints for the custom metrics. *)
Definition customLines (e : Env) : list LogEntry :=
  match getMetrics e with
  | [] => []
  | ms => ([LogGroup "Custom Metrics"]
             ++ map (fun m => LogCustomMetric (name m) (duration m)) ms
             ++ [LogGroupEnd])%list
  end.

(** [ls] appended to the console. *)
Definition logs (e : Env) (ls : list LogEntry) : Env :=
  mkEnv (monitor e) (clock e) (console e ++ ls).

(** An asynchronous step that only writes to the console. *)
Definition consoleOnly {A} (c : Async A) : Prop :=
  forall e, monitor (snd (c e)) = monitor e
            /\ clock (snd (c e)) = clock e
            /\ exists ls, console (snd (c e)) = (console e ++ ls)%list.

End PerformanceHoc.

(** components/UploadSection.tsx: the two entry points of [handleFiles]
    and the drag state. *)
Module UploadHandlers.

Import Upload.

(** [handleDragOver] and [handleDragLeave]: the new [isDragOver]. *)
Definition handleDragOver (isDragOver : bool) : bool := true.
Definition handleDragLeave (isDragOver : bool) : bool := false.

(** [handleDrop(e)], with [files] the list [e.dataTransfer.files]: the new
    [isDragOver] and the effects. *)
Definition handleDrop (createObjectURL : File -> string) (files : list File)
                      (isDragOver : bool) : bool * list Effect :=
  (false, handleFiles createObjectURL files).

(** [handleFileSelect(e)], with [files] the value of [e.target.files],
    which is [null] for an input without a selection. *)
Definition handleFileSelect (createObjectURL : File -> string)
                            (files : option (list File)) : list Effect :=
  handleFiles createObjectURL
              match files with
              | Some l => l
              | None => []
              end.

End UploadHandlers.

(** components/UploadSection.tsx: what the component renders. *)
Module UploadView.

(** The event handlers the markup attaches. *)
Inductive Handler : Type :=
| OnDragOver      (* handleDragOver *)
| OnDragLeave     (* handleDragLeave *)
| OnDrop          (* handleDrop *)
| OnChangeFiles   (* handleFileSelect *)
| OnClickReset.   (* the [onReset] prop *)

Record Props : Type := mkProps {
  className : string;
  disabled : bool;
  src : option string;
  accept : option string;
  handlers : list Handler
}.

Definition plain : Props := mkProps "" false None None [].

(** The rendered tree.  Static Tailwind class lists are left out; class
    names are kept where they depend on the state. *)
Inductive Node : Type :=
| Txt (s : string)
| El (tag : string) (props : Props) (children : list Node).

(** The drop zone, rendered while no image is uploaded. *)
Definition dropZone (isDragOver : bool) : Node :=
  El "div"
     (mkProps (if isDragOver then "bg-neon-cyan/5 border-neon-cyan" else "")
              false None None [OnDragOver; OnDragLeave; OnDrop])
     [El "Upload"
         (mkProps (if isDragOver then "text-neon-cyan" else "text-muted-foreground")
                  false None None []) [];
      El "h3" plain [Txt "Drag & drop your retinal image here"];
      El "p" plain [Txt "or click to browse files"];
      El "input" (mkProps "" false None (Some "image/*") [OnChangeFiles]) [];
      El "Button" plain [El "Upload" plain []; Txt "Select Image"];
      El "p" plain [Txt "Supported formats: JPG, PNG, JPEG (Max 10MB)"]].

(** The overlay shown over the image while the analysis runs. *)
Definition analyzingOverlay : Node :=
  El "div" plain
     [El "div" plain
         [El "Loader2" plain [];
          El "p" plain [Txt "Analyzing Image..."];
          El "p" plain [Txt "AI is processing your retinal scan"];
          El "div" plain [El "div" plain []]]].

(** The preview, rendered once an image is uploaded. *)
Definition preview (uploadedImage : string) (isLoading : bool) : Node :=
  El "div" plain
     [El "div" plain
         ([El "img" (mkProps "" false (Some uploadedImage) None []) []]
            ++ (if isLoading then [analyzingOverlay] else []))%list;
      El "div" plain
         [El "Button" (mkProps "" isLoading None None [OnClickReset])
             [El "X" plain []; Txt "Remove Image"];
          El "Button" (mkProps "" isLoading None None [])
             [El "Eye" plain [];
              Txt (if isLoading then "Analyzing..." else "Analyze Again")]]].

(** [UploadSection({ onImageUpload, uploadedImage, isLoading, onReset })]
    with the component's own [isDragOver]. *)
Definition UploadSection (uploadedImage : option string) (isLoading : bool)
                         (isDragOver : bool) : Node :=
  El "section" plain
     [El "div" plain
         [El "div" plain
             [El "h2" plain [Txt "Upload Retinal Image"];
              El "p" plain [Txt "Select a clear retinal fundus image for AI analysis"]];
          El "Card" plain
             [El "CardContent" plain
                 [match uploadedImage with
                  | Some url => if truthy_str uploadedImage
                                then preview url isLoading
                                else dropZone isDragOver
                  | None => dropZone isDragOver
                  end]]]].

(** The handlers a user can trigger: those of the elements that are not
    disabled, in document order. *)
Fixpoint available (t : Node) : list Handler :=
  match t with
  | Txt _ => []
  | El _ props children =>
      ((if disabled props then [] else handlers props)
         ++ flat_map available children)%list
  end.

(** The buttons of a tree: disabled flag, handlers and text. *)
Fixpoint buttons (t : Node) : list (bool * list Handler * list string) :=
  match t with
  | Txt _ => []
  | El tag props children =>
      ((if String.eqb tag "Button"
        then [(disabled props, handlers props,
               flat_map (fun c => match c with Txt s => [s] | El _ _ _ => [] end)
                        children)]
        else [])
         ++ flat_map buttons children)%list
  end.

End UploadView.

(** components/ChatBot.tsx: the quick questions offered under the
    greeting, and the keyword table of the FAQ. *)
Module ChatQuick.

Definition quickQuestions : list string :=
  ["How accurate is the AI?";
   "What is diabetic retinopathy?";
   "How do I upload an image?";
   "What diseases can be detected?"].

(** The keywords of [FAQ], each with the words [keyword.split(/\W+/)]
    yields for it, in table order. *)
Definition faqKeyWords : list (string * list string) :=
  Eval vm_compute in
    map (fun kv => (fst kv, Chat.splitWords (fst kv))) Chat.FAQ.

End ChatQuick.

(** pages/Index.tsx: the request [handleImageUpload] sends. *)
Module IndexRequest.

Import IndexPage.

(** The argument of [fetch] in [handleImageUpload]: a POST of the form
    data with the image and the heatmap flag. *)
Definition predictRequest (imageFile : Upload.File) : Request :=
  mkRequest "http://localhost:5000/api/predict" "POST"
            [("image", FormFile imageFile);
             ("generate_heatmap", FormString "true")].

End IndexRequest.

(* ===================================================================== *)
(** * Properties of utils/performance.ts *)
(* ===================================================================== *)

Section PerformanceFacts.

Import Performance.

Lemma start_disabled (n : string) (e : Env) :
  isEnabled (monitor e) = false -> start n e = (Resolved tt, e).
Proof. intros H. unfold start. now rewrite H. Qed.

Lemma end_disabled (n : string) (e : Env) :
  isEnabled (monitor e) = false -> end_ n e = (Resolved None, e).
Proof. intros H. unfold end_. now rewrite H. Qed.

Lemma report_disabled (p : option Q) (l : Outcome Q) (e : Env) :
  isEnabled (monitor e) = false -> logPerformanceReport p l e = (Resolved tt, e).
Proof. intros H. unfold logPerformanceReport. now rewrite H. Qed.

Lemma step_quiet (e : Env) (c : Call) : quiet e -> quiet (step e c).
Proof.
  intros (Hd & Hm & Hc). destruct c as [n | n | | p l | t]; cbn [step].
  - rewrite start_disabled by assumption. now repeat split.
  - rewrite end_disabled by assumption. now repeat split.
  - unfold clear, with_metrics; cbn. now repeat split.
  - rewrite report_disabled by assumption. now repeat split.
  - cbn. now repeat split.
Qed.

Lemma run_quiet (calls : list Call) : forall e, quiet e -> quiet (run calls e).
Proof.
  induction calls as [| c calls IH]; intros e He; cbn.
  - exact He.
  - apply IH, step_quiet, He.
Qed.

Lemma init_quiet (node_env : option string) (t0 : Q) :
  node_env <> Some "development" -> quiet (init_env node_env t0).
Proof.
  intros H. unfold quiet, init_env, new_monitor; cbn.
  destruct node_env as [v |]; [| now repeat split].
  destruct (String.eqb_spec v "development") as [-> | _]; [now destruct H |].
  now repeat split.
Qed.

(** C8.  Outside development builds the monitor is a no-op: after any
    history of method calls on a monitor constructed with [NODE_ENV]
    different from ['development'], [isEnabled] is false, [start] and
    [end] leave the state (metrics map, console) exactly as it is, [end]
    returns [undefined], [getMetrics] returns the empty list, and nothing
    was ever recorded in the map or written to the console. *)
Theorem monitor_disabled_is_noop (node_env : option string) (t0 : Q)
        (calls : list Call) :
  node_env <> Some "development" ->
  let e := run calls (init_env node_env t0) in
  isEnabled (monitor e) = false
  /\ (forall n, start n e = (Resolved tt, e))
  /\ (forall n, end_ n e = (Resolved None, e))
  /\ getMetrics e = []
  /\ metrics (monitor e) = []
  /\ console e = [].
Proof.
  intros Hne e.
  destruct (run_quiet calls _ (init_quiet node_env t0 Hne)) as (Hd & Hm & Hc).
  fold e in Hd, Hm, Hc.
  repeat split; try assumption.
  - intros n. now apply start_disabled.
  - intros n. now apply end_disabled.
  - unfold getMetrics. now rewrite Hm.
Qed.

Lemma monitor_disabled_is_noop_witness :
  let e := run [CallStart "api-image-prediction"; Tick 1200;
                CallEnd "api-image-prediction";
                CallLogReport (Some 35) (Resolved 1800)]
               (init_env (Some "production") 0) in
  isEnabled (monitor e) = false
  /\ (forall n, start n e = (Resolved tt, e))
  /\ (forall n, end_ n e = (Resolved None, e))
  /\ getMetrics e = []
  /\ metrics (monitor e) = []
  /\ console e = [].
Proof.
  apply (monitor_disabled_is_noop (Some "production") 0
           [CallStart "api-image-prediction"; Tick 1200;
            CallEnd "api-image-prediction";
            CallLogReport (Some 35) (Resolved 1800)]).
  discriminate.
Defined.

(** In a development build the same history does record and log. *)
Example monitor_enabled_records :
  let e := run [CallStart "a"; Tick 1200; CallEnd "a"] (init_env (Some "development") 0) in
  map name (getMetrics e) = ["a"] /\ console e = [LogMetricEnd "a" (1200 - 0)].
Proof. split; reflexivity. Qed.

Lemma map_get_set_same (m : MetricMap) (k : string) (v : PerformanceMetric) :
  map_get (map_set m k v) k = Some v.
Proof.
  induction m as [| [k' v'] m IH]; cbn.
  - now rewrite String.eqb_refl.
  - destruct (String.eqb k k') eqn:E; cbn.
    + now rewrite String.eqb_refl.
    + rewrite E. exact IH.
Qed.

Lemma measureApiCall_unfold {T} (n : string) (apiCall : Async T) (e : Env) :
  measureApiCall n apiCall e =
  match apiCall (snd (start ("api-" ++ n) e)) with
  | (Resolved v, e1) => (Resolved v, snd (end_ ("api-" ++ n) e1))
  | (Rejected x, e1) => (Rejected x, snd (end_ ("api-" ++ n) e1))
  | (Pending, e1) => (Pending, e1)
  end.
Proof.
  unfold measureApiCall.
  cbn [bind ret catch raise Monad_Async MonadExc_Async].
  unfold async_bind, async_catch, async_throw, async_ret.
  assert (Hs : start ("api-" ++ n) e = (Resolved tt, snd (start ("api-" ++ n) e))).
  { unfold start. now destruct (negb (isEnabled (monitor e))). }
  rewrite Hs; cbn [snd].
  set (e0 := snd (start ("api-" ++ n) e)).
  assert (He : forall e1, exists d, end_ ("api-" ++ n) e1 = (Resolved d, snd (end_ ("api-" ++ n) e1))).
  { intros e1. unfold end_. destruct (negb (isEnabled (monitor e1))); [now eexists |].
    destruct (map_get _ _); now eexists. }
  destruct (apiCall e0) as [[v | x |] e1].
  - destruct (He e1) as [d Hd]. now rewrite Hd.
  - destruct (He e1) as [d Hd]. now rewrite Hd.
  - reflexivity.
Qed.

(** C5.  [measureApiCall] is transparent: when [apiCall], run after the
    metric was started, settles with outcome [o] (a value or an error),
    the wrapper settles with exactly [o], and the state it leaves is the
    state [apiCall] left with [end] called on the metric -- on the error
    path as on the success path.  Hence, with the monitor enabled and
    left alone by [apiCall], the metric then carries the elapsed time
    [clock e1 - clock e] and that time is logged. *)
Theorem measureApiCall_transparent {T} (n : string) (apiCall : Async T)
        (e e1 : Env) (o : Outcome T) :
  apiCall (snd (start ("api-" ++ n) e)) = (o, e1) ->
  settled o = true ->
  measureApiCall n apiCall e = (o, snd (end_ ("api-" ++ n) e1))
  /\ (isEnabled (monitor e) = true ->
      monitor e1 = monitor (snd (start ("api-" ++ n) e)) ->
      let e2 := snd (measureApiCall n apiCall e) in
      map_get (metrics (monitor e2)) ("api-" ++ n)
        = Some (mkMetric ("api-" ++ n) (clock e)
                         (Some (clock e1)) (Some (clock e1 - clock e)))
      /\ console e2
        = (console e1 ++ [LogMetricEnd ("api-" ++ n) (clock e1 - clock e)])%list).
Proof.
  intros Hrun Hset.
  assert (Hm : measureApiCall n apiCall e = (o, snd (end_ ("api-" ++ n) e1))).
  { rewrite measureApiCall_unfold, Hrun. destruct o; [reflexivity | reflexivity | discriminate]. }
  split; [exact Hm |].
  intros Hen Hmon e2. subst e2. rewrite Hm; cbn [snd].
  unfold start in Hmon. rewrite Hen in Hmon. cbn in Hmon.
  unfold end_. rewrite Hmon; cbn.
  rewrite Hen; cbn. rewrite map_get_set_same; cbn.
  rewrite Hmon; cbn. rewrite map_get_set_same. split; reflexivity.
Qed.

Lemma measureApiCall_transparent_witness :
  let err := mkThrown "Error" "API request failed with status: 400" in
  let failing : Async nat :=
    fun e => (Rejected err, mkEnv (monitor e) 3300 (console e)) in
  let e := init_env (Some "development") 1000 in
  let e1 := mkEnv (monitor (snd (start "api-image-prediction" e))) 3300 [] in
  measureApiCall "image-prediction" failing e
    = (Rejected err, snd (end_ "api-image-prediction" e1))
  /\ map_get (metrics (monitor (snd (measureApiCall "image-prediction" failing e))))
             "api-image-prediction"
     = Some (mkMetric "api-image-prediction" 1000 (Some 3300) (Some (3300 - 1000)))
  /\ console (snd (measureApiCall "image-prediction" failing e))
     = [LogMetricEnd "api-image-prediction" (3300 - 1000)].
Proof.
  intros err failing e e1.
  destruct (measureApiCall_transparent "image-prediction" failing e e1
              (Rejected err) eq_refl eq_refl) as [H1 H2].
  split; [exact H1 |].
  apply H2; reflexivity.
Defined.

End PerformanceFacts.

(* ===================================================================== *)
(** * Properties of components/UploadSection.tsx *)
(* ===================================================================== *)

Section UploadFacts.

Import Upload.

Variable createObjectURL : File -> string.

Lemma find_skips_prefix (pre : list File) (f : File) (rest : list File) :
  forallb (fun x => negb (isImage x)) pre = true ->
  isImage f = true ->
  find isImage (pre ++ f :: rest) = Some f.
Proof.
  induction pre as [| x pre IH]; cbn; intros Hpre Hf.
  - now rewrite Hf.
  - apply andb_true_iff in Hpre as [Hx Hpre].
    apply negb_true_iff in Hx. rewrite Hx. now apply IH.
Qed.

Lemma find_none_of_no_image (files : list File) :
  forallb (fun x => negb (isImage x)) files = true -> find isImage files = None.
Proof.
  induction files as [| x files IH]; cbn; intros H; [reflexivity |].
  apply andb_true_iff in H as [Hx H].
  apply negb_true_iff in Hx. rewrite Hx. now apply IH.
Qed.

(** C3.  The 10MB limit: with [imageFile] the file [handleFiles] selects
    from the list, a size above [10 * 1024 * 1024] bytes shows the 'File
    too large' toast and never calls [onImageUpload]; a size of at most
    that many bytes (the boundary included) is accepted and
    [onImageUpload] is called once, with that file and its object URL. *)
Theorem handleFiles_size_limit (files : list File) (imageFile : File) :
  find isImage files = Some imageFile ->
  maxSize = 10485760%N
  /\ ((maxSize < size imageFile)%N ->
      handleFiles createObjectURL files = [ToastShown tooLargeToast]
      /\ uploads (handleFiles createObjectURL files) = []
      /\ toastTitles (handleFiles createObjectURL files) = ["File too large"])
  /\ ((size imageFile <= maxSize)%N ->
      uploads (handleFiles createObjectURL files)
        = [(imageFile, createObjectURL imageFile)]
      /\ toastTitles (handleFiles createObjectURL files)
        = ["Image uploaded successfully"]).
Proof.
  intros Hfind. split; [reflexivity |].
  unfold handleFiles. rewrite Hfind. split; intros Hsz.
  - apply N.ltb_lt in Hsz. rewrite Hsz. repeat split.
  - apply N.ltb_ge in Hsz. rewrite Hsz. repeat split.
Qed.

(** C4 (as the code has it).  [handleFiles] hands a file to
    [onImageUpload] only when its MIME type starts with ['image/'] --
    any image type, not only JPG/PNG/JPEG -- and when no file of the list
    has such a type it shows the 'Invalid file type' toast and does not
    call [onImageUpload]. *)
Theorem handleFiles_accepts_image_mime (files : list File) :
  (forall f u, In (f, u) (uploads (handleFiles createObjectURL files)) ->
               startsWith (type f) "image/" = true)
  /\ (forallb (fun x => negb (isImage x)) files = true ->
      handleFiles createObjectURL files = [ToastShown invalidTypeToast]
      /\ uploads (handleFiles createObjectURL files) = []
      /\ toastTitles (handleFiles createObjectURL files) = ["Invalid file type"]).
Proof.
  split.
  - intros f u. unfold handleFiles.
    destruct (find isImage files) as [imageFile |] eqn:Hfind; [| intros []].
    destruct (maxSize <? size imageFile)%N; [intros [] |].
    intros [Heq | []]. inversion Heq; subst.
    apply find_some in Hfind. exact (proj2 Hfind).
  - intros Hno. unfold handleFiles.
    rewrite (find_none_of_no_image files Hno). repeat split.
Qed.

(** C9.  Several files: the first file whose MIME type starts with
    ['image/'] is the one that is processed -- it is size-checked and,
    within the limit, handed to [onImageUpload] with its object URL,
    otherwise answered by the 'File too large' toast.  The files before it
    are skipped and those after it are ignored: [handleFiles] does
    exactly what it does on that file alone, no other file can reach
    [onImageUpload], and the skipped files raise no 'Invalid file type'
    toast. *)
Theorem handleFiles_first_image_only (pre : list File) (f : File) (rest : list File) :
  forallb (fun x => negb (isImage x)) pre = true ->
  isImage f = true ->
  handleFiles createObjectURL (pre ++ f :: rest) = handleFiles createObjectURL [f]
  /\ handleFiles createObjectURL (pre ++ f :: rest)
     = (if (maxSize <? size f)%N
        then [ToastShown tooLargeToast]
        else [ImageUploaded f (createObjectURL f); ToastShown successToast])
  /\ ((size f <= maxSize)%N ->
      uploads (handleFiles createObjectURL (pre ++ f :: rest))
      = [(f, createObjectURL f)])
  /\ ~ In "Invalid file type"
          (toastTitles (handleFiles createObjectURL (pre ++ f :: rest)))
  /\ (forall g u, In (g, u) (uploads (handleFiles createObjectURL (pre ++ f :: rest)))
                  -> g = f).
Proof.
  intros Hpre Hf.
  assert (E : handleFiles createObjectURL (pre ++ f :: rest)
              = (if (maxSize <? size f)%N
                 then [ToastShown tooLargeToast]
                 else [ImageUploaded f (createObjectURL f); ToastShown successToast])).
  { unfold handleFiles. now rewrite (find_skips_prefix pre f rest Hpre Hf). }
  split.
  { rewrite E. unfold handleFiles. cbn [find]. now rewrite Hf. }
  split; [exact E |].
  rewrite E.
  destruct (maxSize <? size f)%N eqn:Hsz; (split; [| split]).
  - intros Hle. apply N.ltb_lt in Hsz. lia.
  - intros [H | []]. discriminate.
  - intros g u [].
  - reflexivity.
  - intros [H | []]. discriminate.
  - intros g u [H | []]. now inversion H.
Qed.

End UploadFacts.

Section UploadExamples.

Import Upload.

Lemma handleFiles_size_limit_witness :
  uploads (handleFiles blobUrl [scanJpeg]) = [(scanJpeg, blobUrl scanJpeg)]
  /\ uploads (handleFiles blobUrl [hugePng]) = []
  /\ toastTitles (handleFiles blobUrl [hugePng]) = ["File too large"].
Proof.
  split.
  - apply (handleFiles_size_limit blobUrl [scanJpeg] scanJpeg eq_refl).
    vm_compute. discriminate.
  - destruct (handleFiles_size_limit blobUrl [hugePng] hugePng eq_refl)
      as (_ & Hbig & _).
    apply Hbig. reflexivity.
Defined.

(** C4 as stated fails: a GIF is neither JPG, PNG nor JPEG, yet it is
    accepted and no 'Invalid file type' toast is shown. *)
Lemma handleFiles_accepts_gif :
  isJpgPngJpeg scanGif = false
  /\ uploads (handleFiles blobUrl [scanGif]) = [(scanGif, blobUrl scanGif)]
  /\ toastTitles (handleFiles blobUrl [scanGif]) = ["Image uploaded successfully"].
Proof. repeat split. Qed.

Lemma handleFiles_accepts_image_mime_witness :
  (forall f u, In (f, u) (uploads (handleFiles blobUrl [notesTxt; reportPdf])) ->
               startsWith (type f) "image/" = true)
  /\ handleFiles blobUrl [notesTxt; reportPdf] = [ToastShown invalidTypeToast]
  /\ uploads (handleFiles blobUrl [notesTxt; reportPdf]) = []
  /\ toastTitles (handleFiles blobUrl [notesTxt; reportPdf]) = ["Invalid file type"].
Proof.
  destruct (handleFiles_accepts_image_mime blobUrl [notesTxt; reportPdf])
    as [H1 H2].
  split; [exact H1 | apply H2; reflexivity].
Defined.

Lemma handleFiles_first_image_only_witness :
  handleFiles blobUrl ([notesTxt; reportPdf] ++ scanGif :: [scanJpeg; notesTxt])
    = handleFiles blobUrl [scanGif]
  /\ handleFiles blobUrl ([notesTxt; reportPdf] ++ scanGif :: [scanJpeg; notesTxt])
     = (if (maxSize <? size scanGif)%N
        then [ToastShown tooLargeToast]
        else [ImageUploaded scanGif (blobUrl scanGif); ToastShown successToast])
  /\ ((size scanGif <= maxSize)%N ->
      uploads (handleFiles blobUrl
                 ([notesTxt; reportPdf] ++ scanGif :: [scanJpeg; notesTxt]))
      = [(scanGif, blobUrl scanGif)])
  /\ ~ In "Invalid file type"
          (toastTitles (handleFiles blobUrl
                          ([notesTxt; reportPdf] ++ scanGif :: [scanJpeg; notesTxt])))
  /\ (forall g u,
        In (g, u) (uploads (handleFiles blobUrl
                              ([notesTxt; reportPdf] ++ scanGif :: [scanJpeg; notesTxt])))
        -> g = scanGif).
Proof.
  apply (handleFiles_first_image_only blobUrl [notesTxt; reportPdf] scanGif
           [scanJpeg; notesTxt]); reflexivity.
Defined.

End UploadExamples.

(* ===================================================================== *)
(** * Properties of components/ResultsSection.tsx *)
(* ===================================================================== *)

Section ResultsFacts.

Import Results.

Ltac pick_child := (left; reflexivity) + (right; pick_child).

Ltac occurs_search :=
  apply occurs_here
  + (eapply occurs_child; [cbn [In app]; pick_child | occurs_search]).

Lemma heatmapButton_absent (r : PredictionResult) :
  truthy_str (heatmap r) = false -> heatmapButton r = unavailableButton.
Proof.
  intros H. unfold heatmapButton, heatmapClick, unavailableButton.
  rewrite H. now destruct (heatmap r).
Qed.

(** C1.  A result is shown whether or not it carries a heatmap: for every
    non-null result the section renders (never [null]), and the rendered
    tree contains the disease label, the confidence badge and the
    confidence score with its progress bar; these do not depend on the
    [heatmap] field.  When [result.heatmap] is absent, the heatmap button
    is the disabled 'Heatmap Unavailable' button, it is the only disabled
    element of the tree, and apart from that button the result grid is the
    one rendered for the same result with a heatmap. *)
Theorem result_shown_without_heatmap (r : PredictionResult) (img : option string)
        (loading : bool) (today : string) :
  exists tree,
    ResultsSection (Some r) img loading today = Some tree
    /\ occurs (Elem "h3" (cls ("text-2xl font-bold mb-2 " ++ getResultColor (disease r)))
                    [Text (disease r)]) tree
    /\ occurs (Elem "Badge" noAttrs
                    [Text "AI Confidence: ";
                     Text (Z_toString (Math_round (confidence r * 100)));
                     Text "%"]) tree
    /\ occurs (Elem "span" noAttrs
                    [Text (Z_toString (Math_round (confidence r * 100))); Text "%"]) tree
    /\ occurs (Elem "Progress" (mkAttrs "" false (Some (confidence r * 100)) None) []) tree
    /\ occurs (resultGrid r today) tree
    /\ (truthy_str (heatmap r) = false ->
        occurs unavailableButton tree
        /\ disabledNodes tree = [unavailableButton]
        /\ forall h, resultGrid r today
                     = resultGridWith unavailableButton (withHeatmap r h) today).
Proof.
  unfold ResultsSection. rewrite andb_false_r.
  eexists; split; [reflexivity |].
  assert (G : forall n, occurs n (resultGrid r today) ->
                        occurs n (Elem "section" noAttrs
                                    [Elem "div" noAttrs
                                       ([sectionHeader]
                                          ++ (if loading then [loadingCard] else [])
                                          ++ [resultGrid r today])%list])).
  { intros n Hn.
    eapply occurs_child; [left; reflexivity |].
    eapply occurs_child; [| exact Hn].
    destruct loading; cbn; tauto. }
  repeat split.
  - apply G. unfold resultGrid, resultGridWith, mainCardWith, diseaseHeading. occurs_search.
  - apply G. unfold resultGrid, resultGridWith, mainCardWith, confidenceBadge. occurs_search.
  - apply G. unfold resultGrid, resultGridWith, mainCardWith, confidenceScore. occurs_search.
  - apply G. unfold resultGrid, resultGridWith, mainCardWith, confidenceScore. occurs_search.
  - apply G. apply occurs_here.
  - apply G. unfold resultGrid. rewrite (heatmapButton_absent r H).
    unfold resultGridWith, mainCardWith. occurs_search.
  - unfold resultGrid. rewrite (heatmapButton_absent r H).
    destruct loading; reflexivity.
  - intros h. unfold resultGrid. now rewrite (heatmapButton_absent r H).
Qed.

Lemma result_shown_without_heatmap_witness :
  let r := mkResult "Glaucoma" (76 # 100) None None None None in
  exists tree,
    ResultsSection (Some r) (Some "blob:scan") false "1/1/2025" = Some tree
    /\ occurs (Elem "h3" (cls "text-2xl font-bold mb-2 text-neon-pink")
                    [Text "Glaucoma"]) tree
    /\ occurs (Elem "Badge" noAttrs
                    [Text "AI Confidence: "; Text "76"; Text "%"]) tree
    /\ occurs unavailableButton tree
    /\ disabledNodes tree = [unavailableButton].
Proof.
  intros r.
  destruct (result_shown_without_heatmap r (Some "blob:scan") false "1/1/2025")
    as (tree & H1 & H2 & H3 & _ & _ & _ & H7).
  exists tree. split; [exact H1 |]. split; [exact H2 |]. split; [exact H3 |].
  destruct (H7 eq_refl) as (H8 & H9 & _). split; [exact H8 | exact H9].
Defined.

End ResultsFacts.

(* ===================================================================== *)
(** * Properties of pages/Index.tsx *)
(* ===================================================================== *)

Section IndexFacts.

Import Performance Results IndexPage.

Lemma floor_times4_range (random : Q) :
  0 <= random -> random < 1 ->
  (0 <= Math_floor (random * inject_Z 4) < 4)%Z.
Proof.
  intros H0 H1. unfold Math_floor. split.
  - change 0%Z with (Qfloor 0). apply Qfloor_resp_le.
    apply Qmult_le_0_compat; [exact H0 | discriminate].
  - apply Z.lt_nge. intros Hge.
    assert (Hq : inject_Z 4 <= random * inject_Z 4).
    { eapply Qle_trans; [| apply Qfloor_le]. now rewrite <- Zle_Qle. }
    assert (Hlt : random * inject_Z 4 < 1 * inject_Z 4).
    { apply Qmult_lt_compat_r; [reflexivity | exact H1]. }
    apply (Qlt_irrefl (inject_Z 4)).
    eapply Qle_lt_trans; [exact Hq |].
    eapply Qlt_le_trans; [exact Hlt |]. discriminate.
Qed.

Lemma pickMock_in_mockResults (random : Q) :
  0 <= random -> random < 1 ->
  exists m, pickMock random = Some m /\ In m mockResults.
Proof.
  intros H0 H1. unfold pickMock.
  change (inject_Z (Z.of_nat (List.length mockResults))) with (inject_Z 4).
  pose proof (floor_times4_range random H0 H1) as Hr.
  destruct (Math_floor (random * inject_Z 4)) as [| p | p] eqn:E; [| | lia].
  - eexists; split; [reflexivity | cbn; tauto].
  - assert (Hp : (p = 1 \/ p = 2 \/ p = 3)%positive) by lia.
    destruct Hp as [-> | [-> | ->]]; eexists; (split; [reflexivity | cbn; tauto]).
Qed.

(** C2 (what the code does).  When the measured request fails -- the
    fetch rejects, the status is not ok, or the body cannot be read --
    [handleImageUpload] logs the error to the console and then stores as
    prediction result one of the four built-in mock results, picked by
    [Math.random()], none of which comes from the server. *)
Theorem handleImageUpload_failure_sets_mock
        (fetch : Request -> Async Response) (random : Q)
        (imageFile : Upload.File) (imageUrl : string)
        (s : IndexState) (e e1 : Env) (error : Thrown) :
  measureApiCall "image-prediction" (predictCall fetch imageFile) e
    = (Rejected error, e1) ->
  0 <= random -> random < 1 ->
  exists m,
    In m mockResults
    /\ handleImageUpload fetch random imageFile imageUrl s e
       = (Resolved tt,
          mkIndexState (Some imageUrl) (Some m) false,
          log e1 (LogError "Error uploading image:" error)).
Proof.
  intros Hfail H0 H1.
  destruct (pickMock_in_mockResults random H0 H1) as (m & Hm & Hin).
  exists m. split; [exact Hin |].
  unfold handleImageUpload. rewrite Hfail, Hm. reflexivity.
Qed.

Lemma handleImageUpload_failure_sets_mock_witness :
  exists m,
    In m mockResults
    /\ handleImageUpload (fetchStatus 400) (1 # 3) Upload.scanJpeg
                         (Upload.blobUrl Upload.scanJpeg)
                         initialState (init_env (Some "production") 0)
       = (Resolved tt,
          mkIndexState (Some (Upload.blobUrl Upload.scanJpeg)) (Some m) false,
          log (init_env (Some "production") 0)
              (LogError "Error uploading image:"
                        (mkThrown "Error" "API request failed with status: 400"))).
Proof.
  apply (handleImageUpload_failure_sets_mock
           (fetchStatus 400) (1 # 3) Upload.scanJpeg
           (Upload.blobUrl Upload.scanJpeg) initialState
           (init_env (Some "production") 0) (init_env (Some "production") 0)
           (mkThrown "Error" "API request failed with status: 400")).
  - reflexivity.
  - discriminate.
  - reflexivity.
Defined.

(** On the success path the server's result, with or without heatmap, is
    what the page stores. *)
Lemma handleImageUpload_success
      (fetch : Request -> Async Response) (random : Q)
      (imageFile : Upload.File) (imageUrl : string)
      (s : IndexState) (e e1 : Env) (result : PredictionResult) :
  measureApiCall "image-prediction" (predictCall fetch imageFile) e
    = (Resolved result, e1) ->
  handleImageUpload fetch random imageFile imageUrl s e
  = (Resolved tt, mkIndexState (Some imageUrl) (Some result) false, e1).
Proof. intros H. unfold handleImageUpload. now rewrite H. Qed.

Example upload_answered_without_heatmap :
  let data := mkApiData "Normal" (95 # 100) None (Some (23 # 10))
                        (Some "Excellent") None in
  handleImageUpload (fetchOk data) (1 # 3) Upload.scanJpeg
                    (Upload.blobUrl Upload.scanJpeg)
                    initialState (init_env (Some "production") 0)
  = (Resolved tt,
     mkIndexState (Some (Upload.blobUrl Upload.scanJpeg))
                  (Some (mkResult "Normal" (95 # 100) None (Some (23 # 10))
                                  (Some "Excellent") None))
                  false,
     init_env (Some "production") 0).
Proof. reflexivity. Qed.

(** A rejected upload (status 400) ends with a "Glaucoma, 76%" result on
    the page, and a network failure likewise with a mock result. *)
Example upload_rejected_by_server :
  handleImageUpload (fetchStatus 400) (1 # 3) Upload.scanJpeg
                    (Upload.blobUrl Upload.scanJpeg)
                    initialState (init_env (Some "production") 0)
  = (Resolved tt,
     mkIndexState (Some (Upload.blobUrl Upload.scanJpeg))
                  (Some (mockResult "Glaucoma" (76 # 100))) false,
     log (init_env (Some "production") 0)
         (LogError "Error uploading image:"
                   (mkThrown "Error" "API request failed with status: 400"))).
Proof. reflexivity. Qed.

Example upload_network_down :
  handleImageUpload fetchNetworkError (9 # 10) Upload.scanJpeg
                    (Upload.blobUrl Upload.scanJpeg)
                    initialState (init_env (Some "production") 0)
  = (Resolved tt,
     mkIndexState (Some (Upload.blobUrl Upload.scanJpeg))
                  (Some (mockResult "Normal" (95 # 100))) false,
     log (init_env (Some "production") 0)
         (LogError "Error uploading image:"
                   (mkThrown "TypeError" "Failed to fetch"))).
Proof. reflexivity. Qed.

End IndexFacts.

(* ===================================================================== *)
(** * Properties of components/ChatBot.tsx *)
(* ===================================================================== *)

Section ChatFacts.

Import Chat.

(** C10.  One send: when the trimmed input is empty or a reply is
    pending, [handleSendMessage] queues no update, so the message list
    (and the rest of the state) stays as it is.  Otherwise the updates it
    queues append exactly two messages to whatever the list holds when
    they are applied: first one user message carrying the input, then --
    after the pause, and whatever was appended in between -- exactly one
    bot message. *)
Theorem handleSendMessage_growth (clk : Clock) (s : ChatState) :
  (String.eqb (trim (inputValue s)) "" || loading s = true ->
   handleSendMessage clk s = ([], [])
   /\ forall cur,
        applyUpdates (fst (handleSendMessage clk s)
                        ++ snd (handleSendMessage clk s)) cur = cur)
  /\ (String.eqb (trim (inputValue s)) "" || loading s = false ->
      exists u b,
        type u = user /\ content u = inputValue s /\ type b = bot
        /\ (forall cur,
              messages (applyUpdates (fst (handleSendMessage clk s)) cur)
              = (messages cur ++ [u])%list)
        /\ (forall cur,
              messages (applyUpdates (snd (handleSendMessage clk s)) cur)
              = (messages cur ++ [b])%list)
        /\ (forall cur,
              messages (applyUpdates (fst (handleSendMessage clk s)
                                        ++ snd (handleSendMessage clk s)) cur)
              = (messages cur ++ [u; b])%list)).
Proof.
  split; intros Hg; unfold handleSendMessage; rewrite Hg.
  - split; [reflexivity | intros cur; reflexivity].
  - exists (userMessage clk (inputValue s)),
           (botMessage clk (messages s) (inputValue s)).
    repeat split; intros cur; cbn; try reflexivity.
    now rewrite <- app_assoc.
Qed.

Lemma handleSendMessage_growth_witness :
  let clk := mkClock 1000 1000 2200 2201 in
  let asking := mkChat [greeting] "What is glaucoma?" false in
  let blank := mkChat [greeting] "   " false in
  (forall cur,
     applyUpdates (fst (handleSendMessage clk blank)
                     ++ snd (handleSendMessage clk blank)) cur = cur)
  /\ exists u b,
       type u = user /\ content u = "What is glaucoma?" /\ type b = bot
       /\ forall cur,
            messages (applyUpdates (fst (handleSendMessage clk asking)
                                      ++ snd (handleSendMessage clk asking)) cur)
            = (messages cur ++ [u; b])%list.
Proof.
  intros clk asking blank. split.
  - apply (handleSendMessage_growth clk blank). reflexivity.
  - destruct (proj2 (handleSendMessage_growth clk asking) eq_refl)
      as (u & b & Hu & Hc & Hb & _ & _ & Hboth).
    exists u, b. repeat split; assumption.
Defined.

(** The first exchange of a conversation. *)
Example first_exchange :
  let clk := mkClock 1000 1000 2200 2201 in
  let asking := mkChat [greeting] "What is glaucoma?" false in
  map (fun m => (type m, id m))
      (messages (applyUpdates (fst (handleSendMessage clk asking)
                                 ++ snd (handleSendMessage clk asking)) asking))
  = [(bot, "1"); (user, "1000"); (bot, "2201")].
Proof. reflexivity. Qed.

End ChatFacts.

(* ===================================================================== *)
(** * Properties of the serving core's contract *)
(* ===================================================================== *)

Section CoreFacts.

Import Core.

Lemma byteQ_range (b : Byte.byte) : 0 <= byteQ b /\ byteQ b <= 255.
Proof.
  unfold byteQ. pose proof (Byte.to_N_bounded b) as Hb.
  split.
  - change 0 with (inject_Z 0). rewrite <- Zle_Qle. lia.
  - change 255 with (inject_Z 255). rewrite <- Zle_Qle. lia.
Qed.

Lemma frac_range (x : Q) :
  0 <= x - inject_Z (Qfloor x) /\ x - inject_Z (Qfloor x) <= 1.
Proof.
  pose proof (Qfloor_le x) as Hlo.
  pose proof (Qlt_floor x) as Hhi.
  rewrite inject_Z_plus in Hhi. change (inject_Z 1) with 1 in Hhi.
  split; lra.
Qed.

Lemma lerp_range (t a b lo hi : Q) :
  0 <= t -> t <= 1 -> lo <= a -> a <= hi -> lo <= b -> b <= hi ->
  lo <= lerp t a b /\ lerp t a b <= hi.
Proof.
  intros Ht0 Ht1 Ha0 Ha1 Hb0 Hb1. unfold lerp. split; nra.
Qed.

Lemma bilinear_range (img : Image3) (c i j : nat) :
  0 <= bilinear img c i j /\ bilinear img c i j <= 255.
Proof.
  unfold bilinear.
  destruct (frac_range (srcCoord i (height img))) as [Hy0 Hy1].
  destruct (frac_range (srcCoord j (width img))) as [Hx0 Hx1].
  assert (Hv : forall yy xx, 0 <= byteQ (chan c (pixel img yy xx))
                             /\ byteQ (chan c (pixel img yy xx)) <= 255)
    by (intros; apply byteQ_range).
  assert (Hrow : forall yy xa xb,
             0 <= lerp (srcCoord j (width img) - inject_Z (Qfloor (srcCoord j (width img))))
                       (byteQ (chan c (pixel img yy xa)))
                       (byteQ (chan c (pixel img yy xb)))
             /\ lerp (srcCoord j (width img) - inject_Z (Qfloor (srcCoord j (width img))))
                     (byteQ (chan c (pixel img yy xa)))
                     (byteQ (chan c (pixel img yy xb))) <= 255).
  { intros yy xa xb.
    apply lerp_range; try assumption; apply Hv. }
  apply lerp_range; try assumption; apply Hrow.
Qed.

Lemma resizeAndScale_shape (img : Image3) :
  hasShape 224 224 3 (resizeAndScale img).
Proof.
  unfold hasShape, resizeAndScale. split.
  - now rewrite length_map, length_seq.
  - apply Forall_map, Forall_forall. intros i _. split.
    + now rewrite length_map, length_seq.
    + apply Forall_map, Forall_forall. intros j _.
      now rewrite length_map, length_seq.
Qed.

Lemma resizeAndScale_range (img : Image3) : inUnitRange (resizeAndScale img).
Proof.
  unfold inUnitRange, resizeAndScale.
  apply Forall_map, Forall_forall. intros i _.
  apply Forall_map, Forall_forall. intros j _.
  apply Forall_map, Forall_forall. intros c _.
  destruct (bilinear_range img c i j) as [H0 H1].
  split.
  - apply Qle_shift_div_l; [reflexivity | lra].
  - apply Qle_shift_div_r; [reflexivity | lra].
Qed.

(** C6.  For every valid image input -- bytes that decode to a grid of
    any height, any width and any number of channels (grayscale,
    grayscale with alpha, colour, colour with alpha, or more) --
    [preprocess] succeeds, and the tensor it yields has exactly 224 rows
    of 224 pixels of 3 values, each value in [0,1]. *)
Theorem preprocess_shape_and_range
        (decode : RawImage -> option Decoded)
        (clahe gaussianBlur : Image3 -> Image3) (gain : Q)
        (detectCircle : Image3 -> option Circle) (circleThreshold : Q)
        (margin : nat) (assessQuality : Image3 -> QualityReport)
        (raw : RawImage) :
  validImage decode raw ->
  exists t q,
    preprocess decode clahe gaussianBlur gain detectCircle circleThreshold
               margin assessQuality raw = Ok (t, q)
    /\ hasShape 224 224 3 t
    /\ inUnitRange t.
Proof.
  intros (d & Hd & Hc). unfold preprocess. rewrite Hd.
  assert (Hrgb : exists img, toRGB d = Ok img).
  { unfold toRGB. destruct (d_channels d) as [| [| [| n]]];
      [now destruct Hc | | |]; eexists; reflexivity. }
  destruct Hrgb as [img Himg]. rewrite Himg.
  eexists; eexists. split; [reflexivity |].
  split; [apply resizeAndScale_shape | apply resizeAndScale_range].
Qed.

Lemma preprocess_shape_and_range_witness :
  let decode := fun _ : RawImage =>
                  Some (mkDecoded 2 3 2 (fun _ _ _ => Byte.x80)) in
  let noCircle := fun _ : Image3 => @None Circle in
  let quality := fun _ : Image3 => mkQuality 0 (128 # 1) 0 Poor in
  exists t q,
    preprocess decode (fun i => i) (fun i => i) (3 # 2) noCircle (1 # 2) 4%nat
               quality (mkRaw [] "image/png") = Ok (t, q)
    /\ hasShape 224 224 3 t
    /\ inUnitRange t.
Proof.
  intros decode noCircle quality.
  apply (preprocess_shape_and_range decode (fun i => i) (fun i => i) (3 # 2)
           noCircle (1 # 2) 4%nat quality (mkRaw [] "image/png")).
  exists (mkDecoded 2 3 2 (fun _ _ _ => Byte.x80)).
  split; [reflexivity | discriminate].
Defined.

(** Bytes that do not decode, and layouts that cannot be normalized, are
    the two ways [preprocess] fails. *)
Lemma preprocess_errors
      (decode : RawImage -> option Decoded)
      (clahe gaussianBlur : Image3 -> Image3) (gain : Q)
      (detectCircle : Image3 -> option Circle) (circleThreshold : Q)
      (margin : nat) (assessQuality : Image3 -> QualityReport)
      (raw : RawImage) (e : CoreError) :
  preprocess decode clahe gaussianBlur gain detectCircle circleThreshold
             margin assessQuality raw = Err e ->
  e = InvalidImageError \/ e = UnsupportedFormatError.
Proof.
  unfold preprocess. destruct (decode raw) as [d |]; [| intros [= <-]; now left].
  unfold toRGB.
  destruct (d_channels d) as [| [| [| n]]]; intros [= <-]; now right.
Qed.

Section ExplainFacts.

Variable targetLayer : string.
Variable pixelGradient : Image3 -> Attempt Grid.
Variable upsample : Grid -> nat -> nat -> Attempt Grid.
Variable render : Image3 -> Grid -> Attempt (list Byte.byte).

Let explain' := explain targetLayer pixelGradient upsample render.
Let gradCam' := gradCam targetLayer upsample.
Let pixelFallback' := pixelFallback pixelGradient upsample.

(** C7 (as the strategies have it).  [explain] never raises: for every
    model, tensor and image -- whatever the model's capture, the two
    strategies and the renderer do, raising included -- it returns
    normally, and its result is determined as follows.  When gradient
    capture is unavailable Grad-CAM fails, its failure is logged first
    and the pixel-gradient fallback is attempted next.  The map of the
    first strategy that succeeds is rendered: if the rendering succeeds
    the artifact is that figure, with the strategy that produced it; if
    the rendering fails the failure is logged and the artifact is
    [null].  When both strategies fail, each was attempted in order and
    the artifact is [null]. *)
Theorem explain_never_raises (m : Model) (t : NormalizedTensor) (img : Image3) :
  exists r l,
    explain' m t img = (Done r, l)
    /\ (forall f, captureStage m targetLayer t = Raised f ->
                  gradCam' m t img = Raised f
                  /\ exists l', l = StrategyFailed "grad-cam" f :: l')
    /\ (forall g bs,
          gradCam' m t img = Done g -> render img g = Done bs ->
          r = Some (mkArtifact bs "grad-cam" (Some targetLayer))
          /\ l = [StrategySucceeded "grad-cam"])
    /\ (forall g f,
          gradCam' m t img = Done g -> render img g = Raised f ->
          r = None
          /\ l = [StrategySucceeded "grad-cam"; RenderFailed f])
    /\ (forall f1 g bs,
          gradCam' m t img = Raised f1 ->
          pixelFallback' m t img = Done g -> render img g = Done bs ->
          r = Some (mkArtifact bs "pixel-gradient" None)
          /\ l = [StrategyFailed "grad-cam" f1;
                  StrategySucceeded "pixel-gradient"])
    /\ (forall f1 g f,
          gradCam' m t img = Raised f1 ->
          pixelFallback' m t img = Done g -> render img g = Raised f ->
          r = None
          /\ l = [StrategyFailed "grad-cam" f1;
                  StrategySucceeded "pixel-gradient"; RenderFailed f])
    /\ (forall f1 f2,
          gradCam' m t img = Raised f1 ->
          pixelFallback' m t img = Raised f2 ->
          r = None
          /\ l = [StrategyFailed "grad-cam" f1;
                  StrategyFailed "pixel-gradient" f2])
    /\ ((forall g, exists f, render img g = Raised f) -> r = None).
Proof.
  unfold explain', gradCam', pixelFallback', explain, explainUnguarded.
  unfold strategies, firstSuccess.
  assert (Hcap : forall f, captureStage m targetLayer t = Raised f ->
                           gradCam targetLayer upsample m t img = Raised f).
  { intros f Hf. unfold gradCam. now rewrite Hf. }
  destruct (gradCam targetLayer upsample m t img) as [g1 | f1] eqn:E1.
  - (* Grad-CAM produced a map *)
    destruct (render img g1) as [bs | fr] eqn:Er;
      (eexists; eexists; split; [reflexivity |]);
      (split; [intros f Hf; specialize (Hcap f Hf); discriminate |]);
      (split; [intros g bs' [= <-] Hr; rewrite Er in Hr;
               first [injection Hr as <-; split; reflexivity | discriminate] |]);
      (split; [intros g f [= <-] Hr; rewrite Er in Hr;
               first [injection Hr as <-; split; reflexivity | discriminate] |]);
      (split; [intros ? ? ? H; discriminate |]);
      (split; [intros ? ? ? H; discriminate |]);
      (split; [intros ? ? H; discriminate |]).
    + intros Hr. destruct (Hr g1) as [f Hf]. congruence.
    + reflexivity.
  - (* Grad-CAM failed: the fallback is tried *)
    destruct (pixelFallback pixelGradient upsample m t img) as [g2 | f2] eqn:E2.
    + destruct (render img g2) as [bs | fr] eqn:Er;
        (eexists; eexists; split; [reflexivity |]);
        (split; [intros f Hf; specialize (Hcap f Hf); injection Hcap as <-;
                 split; [reflexivity | eexists; reflexivity] |]);
        (split; [intros ? ? H; discriminate |]);
        (split; [intros ? ? H; discriminate |]);
        (split; [intros f g bs' [= <-] [= <-] Hr; rewrite Er in Hr;
                 first [injection Hr as <-; split; reflexivity | discriminate] |]);
        (split; [intros f g f' [= <-] [= <-] Hr; rewrite Er in Hr;
                 first [injection Hr as <-; split; reflexivity | discriminate] |]);
        (split; [intros ? ? _ H; discriminate |]).
      * intros Hr. destruct (Hr g2) as [f Hf]. congruence.
      * reflexivity.
    + eexists; eexists; split; [reflexivity |].
      split; [intros f Hf; specialize (Hcap f Hf); injection Hcap as <-;
              split; [reflexivity | eexists; reflexivity] |].
      split; [intros ? ? H; discriminate |].
      split; [intros ? ? H; discriminate |].
      split; [intros ? ? ? _ H; discriminate |].
      split; [intros ? ? ? _ H; discriminate |].
      split; [intros ? ? [= <-] [= <-]; split; reflexivity | reflexivity].
Qed.

End ExplainFacts.

Lemma explain_never_raises_witness :
  let stub := mkModel (fun _ _ => Raised LayerNotFound) in
  let noPixels := fun _ : Image3 => @Raised Grid GradientComputationError in
  let up := fun (g : Grid) (_ _ : nat) => Done g in
  let noRender := fun (_ : Image3) (_ : Grid) =>
                    @Raised (list Byte.byte) RenderingError in
  let img := mkImage3 2 2 (fun _ _ => (Byte.x10, Byte.x20, Byte.x30)) in
  explain "conv2d_7" noPixels up noRender stub [] img
  = (Done None, [StrategyFailed "grad-cam" LayerNotFound;
                 StrategyFailed "pixel-gradient" GradientComputationError]).
Proof.
  intros stub noPixels up noRender img.
  destruct (explain_never_raises "conv2d_7" noPixels up noRender stub [] img)
    as (r & l & Hrun & _ & _ & _ & _ & _ & Hboth & _).
  destruct (Hboth LayerNotFound GradientComputationError eq_refl eq_refl)
    as [-> ->].
  exact Hrun.
Defined.

(** C7 as stated fails: for a stub model without the layer gradient
    capture is unavailable, yet on an image whose pixel gradient can be
    taken the fallback supplies the map after Grad-CAM has failed, and
    the artifact is not [null]. *)
Example explain_falls_back :
  let stub := mkModel (fun _ _ => Raised LayerNotFound) in
  let flat := fun _ : Image3 => Done [[0; 1]; [1 # 2; 0]] in
  let up := fun (g : Grid) (_ _ : nat) => Done g in
  let draw := fun (_ : Image3) (_ : Grid) => Done [Byte.x89; Byte.x50] in
  let img := mkImage3 2 2 (fun _ _ => (Byte.x10, Byte.x20, Byte.x30)) in
  captureStage stub "conv2d_7" [] = Raised LayerNotFound
  /\ explain "conv2d_7" flat up draw stub [] img
     = (Done (Some (mkArtifact [Byte.x89; Byte.x50] "pixel-gradient" None)),
        [StrategyFailed "grad-cam" LayerNotFound;
         StrategySucceeded "pixel-gradient"])
  /\ fst (explain "conv2d_7" flat up draw stub [] img) <> Done None.
Proof. repeat split. cbn. discriminate. Qed.

End CoreFacts.

(* ===================================================================== *)
(** * Further properties of utils/performance.ts *)
(* ===================================================================== *)

Section MonitorHistories.

Import Performance PerformanceHoc.

Lemma map_get_set_other (m : MetricMap) (k k' : string) (v : PerformanceMetric) :
  k <> k' -> map_get (map_set m k v) k' = map_get m k'.
Proof.
  intros Hne. induction m as [| [k0 v0] m IH]; cbn.
  - destruct (String.eqb_spec k' k) as [-> | _]; [now destruct Hne | reflexivity].
  - destruct (String.eqb_spec k k0) as [-> | Hk]; cbn.
    + destruct (String.eqb_spec k' k0) as [-> | _]; [now destruct Hne | reflexivity].
    + destruct (String.eqb k' k0); [reflexivity | exact IH].
Qed.

Lemma map_get_In (m : MetricMap) (k : string) (v : PerformanceMetric) :
  map_get m k = Some v -> In (k, v) m.
Proof.
  induction m as [| [k0 v0] m IH]; cbn; [discriminate |].
  destruct (String.eqb_spec k k0) as [-> | _].
  - intros [= ->]. now left.
  - intros H. right. now apply IH.
Qed.

Lemma In_map_get (m : MetricMap) (k : string) (v : PerformanceMetric) :
  NoDup (map fst m) -> In (k, v) m -> map_get m k = Some v.
Proof.
  induction m as [| [k0 v0] m IH]; cbn; [intros _ [] |].
  intros Hnd [[= -> ->] | Hin].
  - now rewrite String.eqb_refl.
  - inversion Hnd as [| ? ? Hk0 Hnd']; subst.
    destruct (String.eqb_spec k k0) as [-> | _].
    + destruct Hk0. change k0 with (fst (k0, v)). now apply in_map.
    + now apply IH.
Qed.

Lemma map_set_keys (m : MetricMap) (k k' : string) (v : PerformanceMetric) :
  In k' (map fst (map_set m k v)) <-> k' = k \/ In k' (map fst m).
Proof.
  induction m as [| [k0 v0] m IH]; cbn.
  - intuition congruence.
  - destruct (String.eqb_spec k k0) as [-> | Hk]; cbn.
    + intuition congruence.
    + rewrite IH. intuition congruence.
Qed.

Lemma map_set_NoDup (m : MetricMap) (k : string) (v : PerformanceMetric) :
  NoDup (map fst m) -> NoDup (map fst (map_set m k v)).
Proof.
  induction m as [| [k0 v0] m IH]; cbn; intros Hnd.
  - repeat constructor. intros [].
  - inversion Hnd as [| ? ? Hk0 Hnd']; subst.
    destruct (String.eqb_spec k k0) as [-> | Hk]; cbn.
    + now constructor.
    + constructor; [| now apply IH].
      rewrite map_set_keys. intros [E | Hin]; [now destruct Hk | now apply Hk0].
Qed.

Lemma map_set_Forall (P : string * PerformanceMetric -> Prop)
      (m : MetricMap) (k : string) (v : PerformanceMetric) :
  Forall P m -> P (k, v) -> Forall P (map_set m k v).
Proof.
  intros Hm Hv. induction Hm as [| [k0 v0] m H0 Hm IH]; cbn.
  - now repeat constructor.
  - destruct (String.eqb k k0); constructor; assumption.
Qed.

Lemma start_enabled (n : string) (e : Env) :
  isEnabled (monitor e) = true ->
  start n e
  = (Resolved tt,
     with_metrics e (map_set (metrics (monitor e)) n (mkMetric n (clock e) None None))).
Proof. intros H. unfold start. now rewrite H. Qed.

Lemma end_missing (n : string) (e : Env) :
  map_get (metrics (monitor e)) n = None -> end_ n e = (Resolved None, e).
Proof.
  intros H. unfold end_. rewrite H. now destruct (negb (isEnabled (monitor e))).
Qed.

Lemma end_running (n : string) (e : Env) (metric : PerformanceMetric) :
  isEnabled (monitor e) = true ->
  map_get (metrics (monitor e)) n = Some metric ->
  end_ n e
  = (Resolved (Some (clock e - startTime metric)),
     mkEnv (mkMonitor
              (map_set (metrics (monitor e)) n
                 (mkMetric (name metric) (startTime metric) (Some (clock e))
                           (Some (clock e - startTime metric))))
              true)
           (clock e)
           (console e ++ [LogMetricEnd n (clock e - startTime metric)])%list).
Proof.
  intros He Hg. unfold end_. rewrite He; cbn. rewrite Hg.
  unfold with_metrics, log; cbn. now rewrite He.
Qed.

(** ** Steps that only write to the console *)

Lemma consoleOnly_ret {A} (a : A) : consoleOnly (ret a : Async A).
Proof. intros e; cbn. repeat split. exists []. now rewrite app_nil_r. Qed.

Lemma consoleOnly_say (l : LogEntry) : consoleOnly (say l).
Proof. intros e; cbn. repeat split. now exists [l]. Qed.

Lemma consoleOnly_outcome {A} (o : Outcome A) : consoleOnly (fun e => (o, e)).
Proof. intros e; cbn. repeat split. exists []. now rewrite app_nil_r. Qed.

Lemma consoleOnly_bind {A B} (c : Async A) (k : A -> Async B) :
  consoleOnly c -> (forall a, consoleOnly (k a)) -> consoleOnly (bind c k).
Proof.
  intros Hc Hk e. cbn [bind Monad_Async]. unfold async_bind.
  destruct (Hc e) as (Hm & Ht & ls & Hl).
  destruct (c e) as [[a | x |] e1]; cbn [snd] in *.
  - destruct (Hk a e1) as (Hm' & Ht' & ls' & Hl').
    repeat split; [congruence | congruence |].
    exists (ls ++ ls')%list. now rewrite Hl', Hl, app_assoc.
  - repeat split; try assumption. now exists ls.
  - repeat split; try assumption. now exists ls.
Qed.

Lemma consoleOnly_catch {A} (c : Async A) (h : Thrown -> Async A) :
  consoleOnly c -> (forall x, consoleOnly (h x)) -> consoleOnly (catch c h).
Proof.
  intros Hc Hh e. cbn [catch MonadExc_Async]. unfold async_catch.
  destruct (Hc e) as (Hm & Ht & ls & Hl).
  destruct (c e) as [[a | x |] e1]; cbn [snd] in *.
  - repeat split; try assumption. now exists ls.
  - destruct (Hh x e1) as (Hm' & Ht' & ls' & Hl').
    repeat split; [congruence | congruence |].
    exists (ls ++ ls')%list. now rewrite Hl', Hl, app_assoc.
  - repeat split; try assumption. now exists ls.
Qed.

Lemma consoleOnly_say_all (ls : list LogEntry) : consoleOnly (say_all ls).
Proof.
  induction ls as [| l ls IH]; cbn [say_all].
  - apply consoleOnly_ret.
  - apply consoleOnly_bind; [apply consoleOnly_say | intros _; exact IH].
Qed.

Lemma consoleOnly_logCustomMetrics : consoleOnly logCustomMetrics.
Proof.
  intros e. unfold logCustomMetrics.
  destruct (0 <? List.length (getMetrics e))%nat.
  - apply (consoleOnly_bind (say (LogGroup "Custom Metrics"))); [apply consoleOnly_say |].
    intros _. apply consoleOnly_bind; [apply consoleOnly_say_all |].
    intros _. apply consoleOnly_say.
  - cbn. repeat split. exists []. now rewrite app_nil_r.
Qed.

Lemma consoleOnly_reportBody (p : option Q) (l : Outcome Q) :
  consoleOnly (reportBody p l).
Proof.
  unfold reportBody.
  apply consoleOnly_bind; [apply consoleOnly_say | intros _].
  apply consoleOnly_bind.
  { destruct p as [t |]; [| apply consoleOnly_ret].
    destruct (truthy_num (Some t)); [apply consoleOnly_say | apply consoleOnly_ret]. }
  intros _. apply consoleOnly_bind.
  { apply consoleOnly_catch.
    - apply consoleOnly_bind; [apply consoleOnly_outcome | intros v].
      apply consoleOnly_bind; [apply consoleOnly_say | intros _; apply consoleOnly_say].
    - intros _. apply consoleOnly_say. }
  intros _. apply consoleOnly_bind; [apply consoleOnly_logCustomMetrics |].
  intros _. apply consoleOnly_say.
Qed.

Lemma consoleOnly_report (p : option Q) (l : Outcome Q) :
  consoleOnly (logPerformanceReport p l).
Proof.
  intros e. unfold logPerformanceReport.
  destruct (negb (isEnabled (monitor e))).
  - cbn. repeat split. exists []. now rewrite app_nil_r.
  - apply consoleOnly_reportBody.
Qed.

(** X5.  [logPerformanceReport] only reads the monitor: whatever the
    page-load time and whatever becomes of the LCP promise, on an enabled
    monitor as on a disabled one, it leaves the metrics map, the enabled
    flag and the clock as they are and only appends lines to the
    console. *)
Theorem logPerformanceReport_read_only (p : option Q) (l : Outcome Q) (e : Env) :
  monitor (snd (logPerformanceReport p l e)) = monitor e
  /\ clock (snd (logPerformanceReport p l e)) = clock e
  /\ getMetrics (snd (logPerformanceReport p l e)) = getMetrics e
  /\ exists ls, console (snd (logPerformanceReport p l e)) = (console e ++ ls)%list.
Proof.
  destruct (consoleOnly_report p l e) as (Hm & Ht & Hl).
  repeat split; try assumption.
  unfold getMetrics. now rewrite Hm.
Qed.

Lemma step_enabled (e : Env) (c : Call) :
  isEnabled (monitor (step e c)) = isEnabled (monitor e).
Proof.
  destruct c as [n | n | | p l | t]; cbn [step].
  - unfold start. now destruct (negb (isEnabled (monitor e))).
  - unfold end_. destruct (negb (isEnabled (monitor e))); [reflexivity |].
    now destruct (map_get (metrics (monitor e)) n).
  - reflexivity.
  - now rewrite (proj1 (consoleOnly_report p l e)).
  - reflexivity.
Qed.

Lemma run_enabled (calls : list Call) :
  forall e, isEnabled (monitor (run calls e)) = isEnabled (monitor e).
Proof.
  induction calls as [| c calls IH]; intros e; cbn; [reflexivity |].
  fold (run calls (step e c)). now rewrite IH, step_enabled.
Qed.

Lemma step_untouched (n : string) (e : Env) (c : Call) :
  touches n c = false ->
  map_get (metrics (monitor (step e c))) n = map_get (metrics (monitor e)) n.
Proof.
  intros Ht. destruct c as [m | m | | p l | t]; cbn [step touches] in *.
  - apply String.eqb_neq in Ht. unfold start.
    destruct (negb (isEnabled (monitor e))); cbn; [reflexivity |].
    now apply map_get_set_other.
  - apply String.eqb_neq in Ht. unfold end_.
    destruct (negb (isEnabled (monitor e))); cbn; [reflexivity |].
    destruct (map_get (metrics (monitor e)) m); cbn; [| reflexivity].
    now apply map_get_set_other.
  - discriminate.
  - now rewrite (proj1 (consoleOnly_report p l e)).
  - reflexivity.
Qed.

Lemma run_untouched (n : string) (calls : list Call) :
  forallb (fun c => negb (touches n c)) calls = true ->
  forall e, map_get (metrics (monitor (run calls e))) n
            = map_get (metrics (monitor e)) n.
Proof.
  induction calls as [| c calls IH]; cbn; intros H e; [reflexivity |].
  apply andb_true_iff in H as [Hc H]. apply negb_true_iff in Hc.
  fold (run calls (step e c)). now rewrite IH, step_untouched.
Qed.

(** X1.  Start/end round trip on an enabled monitor: if [start(n)] is
    called when the clock reads [t0] and, after any calls that neither
    start nor end [n] nor clear the map, [end(n)] is called when the clock
    reads [t1], then [end] returns [t1 - t0], logs that duration, and the
    entry of [n] carries start time [t0], end time [t1] and duration
    [t1 - t0]. *)
Theorem start_end_round_trip (n : string) (calls : list Call) (e : Env) :
  isEnabled (monitor e) = true ->
  forallb (fun c => negb (touches n c)) calls = true ->
  let e1 := run calls (snd (start n e)) in
  fst (end_ n e1) = Resolved (Some (clock e1 - clock e))
  /\ map_get (metrics (monitor (snd (end_ n e1)))) n
     = Some (mkMetric n (clock e) (Some (clock e1)) (Some (clock e1 - clock e)))
  /\ console (snd (end_ n e1))
     = (console e1 ++ [LogMetricEnd n (clock e1 - clock e)])%list.
Proof.
  intros He Hcalls e1.
  assert (Hg : map_get (metrics (monitor e1)) n
               = Some (mkMetric n (clock e) None None)).
  { unfold e1. rewrite (run_untouched n calls Hcalls).
    rewrite (start_enabled n e He); cbn. apply map_get_set_same. }
  assert (He1 : isEnabled (monitor e1) = true).
  { unfold e1. rewrite run_enabled, (start_enabled n e He). exact He. }
  rewrite (end_running n e1 _ He1 Hg); cbn.
  repeat split. apply map_get_set_same.
Qed.

Lemma start_end_round_trip_witness :
  let e := init_env (Some "development") 100 in
  let calls := [Tick 150; CallStart "index-page-load"; Tick 1100;
                CallLogReport None Pending] in
  let e1 := run calls (snd (start "app-initialization" e)) in
  fst (end_ "app-initialization" e1) = Resolved (Some (1100 - 100))
  /\ map_get (metrics (monitor (snd (end_ "app-initialization" e1))))
             "app-initialization"
     = Some (mkMetric "app-initialization" 100 (Some 1100) (Some (1100 - 100)))
  /\ console (snd (end_ "app-initialization" e1))
     = (console e1 ++ [LogMetricEnd "app-initialization" (1100 - 100)])%list.
Proof.
  intros e calls e1.
  apply (start_end_round_trip "app-initialization" calls e); reflexivity.
Defined.

Lemma step_wellFormed (e : Env) (c : Call) :
  wellFormed (metrics (monitor e)) -> wellFormed (metrics (monitor (step e c))).
Proof.
  intros [Hnd Hco]. destruct c as [n | n | | p l | t]; cbn [step].
  - unfold start. destruct (negb (isEnabled (monitor e))); cbn; [now split |].
    split; [now apply map_set_NoDup |].
    apply map_set_Forall; [exact Hco | now split].
  - unfold end_. destruct (negb (isEnabled (monitor e))); cbn; [now split |].
    destruct (map_get (metrics (monitor e)) n) as [metric |] eqn:Hg; cbn;
      [| now split].
    split; [now apply map_set_NoDup |].
    apply map_set_Forall; [exact Hco |].
    apply map_get_In in Hg.
    rewrite Forall_forall in Hco. destruct (Hco _ Hg) as [Hname _].
    now split.
  - cbn. split; constructor.
  - rewrite (proj1 (consoleOnly_report p l e)). now split.
  - now split.
Qed.

Lemma run_wellFormed (node_env : option string) (t0 : Q) (calls : list Call) :
  wellFormed (metrics (monitor (run calls (init_env node_env t0)))).
Proof.
  assert (H : forall cs e, wellFormed (metrics (monitor e)) ->
                           wellFormed (metrics (monitor (run cs e)))).
  { induction cs as [| c cs IH]; intros e He; cbn; [exact He |].
    fold (run cs (step e c)). apply IH, step_wellFormed, He. }
  apply (H calls (init_env node_env t0)). split; constructor.
Qed.

(** X3.  Invariant of the monitor: after any history of method calls on
    a freshly constructed monitor, enabled or not, no metric name occurs
    twice in the map, every entry is filed under its own name, and an
    entry has an end time exactly when it has a duration, the duration
    being end time minus start time. *)
Theorem metrics_well_formed (node_env : option string) (t0 : Q) (calls : list Call) :
  let m := metrics (monitor (run calls (init_env node_env t0))) in
  NoDup (map fst m)
  /\ Forall (fun kv =>
               name (snd kv) = fst kv
               /\ match endTime (snd kv), duration (snd kv) with
                  | None, None => True
                  | Some t, Some d => d = t - startTime (snd kv)
                  | _, _ => False
                  end) m.
Proof. apply run_wellFormed. Qed.

(** X4.  What [getMetrics] lists: after any history, a metric is in the
    list exactly when it is the map's entry for its name, it has been
    ended, and its duration, end time minus start time, is not zero.  A
    metric ended in the very instant it was started is kept in the map but
    is not listed. *)
Theorem getMetrics_lists_ended (node_env : option string) (t0 : Q)
        (calls : list Call) (m : PerformanceMetric) :
  let e := run calls (init_env node_env t0) in
  In m (getMetrics e)
  <-> (map_get (metrics (monitor e)) (name m) = Some m
       /\ exists t, endTime m = Some t
                    /\ duration m = Some (t - startTime m)
                    /\ ~ t - startTime m == 0).
Proof.
  intros e.
  destruct (run_wellFormed node_env t0 calls) as [Hnd Hco].
  fold e in Hnd, Hco. rewrite Forall_forall in Hco.
  unfold getMetrics, map_values. rewrite filter_In, in_map_iff. split.
  - intros [([k m'] & Hm & Hin) Htr]. cbn in Hm. subst m'.
    destruct (Hco _ Hin) as [Hname Hshape]. cbn in Hname, Hshape.
    split; [apply In_map_get; [exact Hnd | now rewrite Hname] |].
    destruct (duration m) as [d |] eqn:Hd; [| discriminate].
    destruct (endTime m) as [t |] eqn:Ht; [| contradiction].
    exists t. subst d. repeat split.
    cbn in Htr. apply negb_true_iff in Htr.
    intros Hz. apply Qeq_bool_iff in Hz. congruence.
  - intros [Hg (t & Ht & Hd & Hnz)]. split.
    + exists (name m, m). split; [reflexivity | now apply map_get_In].
    + rewrite Hd. cbn. apply negb_true_iff.
      destruct (Qeq_bool (t - startTime m) 0) eqn:E; [| reflexivity].
      apply Qeq_bool_iff in E. contradiction.
Qed.

(** A metric started and ended while the clock reads 5 is stored with
    duration zero and left out of the list. *)
Example zero_duration_not_listed :
  let e := run [CallStart "a"; CallEnd "a"] (init_env (Some "development") 5) in
  map_get (metrics (monitor e)) "a" = Some (mkMetric "a" 5 (Some 5) (Some (5 - 5)))
  /\ getMetrics e = [].
Proof. split; reflexivity. Qed.

Lemma step_stays_missing (n : string) (e : Env) (c : Call) :
  starts n c = false ->
  map_get (metrics (monitor e)) n = None ->
  map_get (metrics (monitor (step e c))) n = None.
Proof.
  intros Hs Hg. destruct c as [m | m | | p l | t]; cbn [step starts] in *.
  - apply String.eqb_neq in Hs. unfold start.
    destruct (negb (isEnabled (monitor e))); cbn; [exact Hg |].
    now rewrite map_get_set_other.
  - unfold end_. destruct (negb (isEnabled (monitor e))); cbn; [exact Hg |].
    destruct (map_get (metrics (monitor e)) m) as [metric |] eqn:Hm; cbn;
      [| exact Hg].
    destruct (String.eqb_spec m n) as [-> | Hne]; [congruence |].
    now rewrite map_get_set_other.
  - reflexivity.
  - now rewrite (proj1 (consoleOnly_report p l e)).
  - exact Hg.
Qed.

(** X2.  [end] without [start]: if metric [n] has no entry -- on a fresh
    monitor, or after [clear()] -- and the calls made since never start
    [n], then [end(n)] returns [undefined] and changes nothing: no entry
    is made and nothing is logged. *)
Theorem end_without_start (n : string) (calls : list Call) (e : Env) :
  map_get (metrics (monitor e)) n = None ->
  forallb (fun c => negb (starts n c)) calls = true ->
  end_ n (run calls e) = (Resolved None, run calls e).
Proof.
  intros Hg Hcalls. apply end_missing.
  revert e Hg. induction calls as [| c calls IH]; intros e Hg; cbn; [exact Hg |].
  cbn in Hcalls. apply andb_true_iff in Hcalls as [Hc Hcalls].
  apply negb_true_iff in Hc.
  fold (run calls (step e c)). apply IH; [exact Hcalls |].
  now apply step_stays_missing.
Qed.

Lemma end_without_start_witness :
  let e := snd (clear (run [CallStart "api-image-prediction"; Tick 40]
                           (init_env (Some "development") 0))) in
  let calls := [Tick 90; CallStart "index-page-load"; CallEnd "index-page-load"] in
  end_ "api-image-prediction" (run calls e) = (Resolved None, run calls e).
Proof.
  intros e calls.
  apply (end_without_start "api-image-prediction" calls e); reflexivity.
Defined.

Lemma logs_nil (e : Env) : logs e [] = e.
Proof. destruct e. unfold logs; cbn. now rewrite app_nil_r. Qed.

Lemma logs_logs (e : Env) (a b : list LogEntry) :
  logs (logs e a) b = logs e (a ++ b).
Proof. unfold logs; cbn. now rewrite app_assoc. Qed.

Lemma say_logs (l : LogEntry) (e : Env) : say l e = (Resolved tt, logs e [l]).
Proof. reflexivity. Qed.

Lemma say_all_logs (ls : list LogEntry) :
  forall e, say_all ls e = (Resolved tt, logs e ls).
Proof.
  induction ls as [| x ls IH]; intros e; cbn [say_all].
  - cbn. now rewrite logs_nil.
  - cbn [bind Monad_Async]. unfold async_bind.
    now rewrite say_logs, IH, logs_logs.
Qed.

Lemma logCustomMetrics_logs (e : Env) :
  logCustomMetrics e = (Resolved tt, logs e (customLines e)).
Proof.
  unfold logCustomMetrics, customLines.
  destruct (getMetrics e) as [| m ms] eqn:Hm; cbn [List.length Nat.ltb Nat.leb].
  - now rewrite logs_nil.
  - cbn [bind Monad_Async]. unfold async_bind.
    now rewrite say_logs, say_all_logs, say_logs, !logs_logs.
Qed.

Lemma report_transcript (p : option Q) (l : Outcome Q) (e : Env) :
  isEnabled (monitor e) = true ->
  logPerformanceReport p l e
  = match l with
    | Pending =>
        (Pending, logs e ([LogGroup "Performance Report"] ++ pageLoadLines p))
    | Rejected _ =>
        (Resolved tt,
         logs e ([LogGroup "Performance Report"] ++ pageLoadLines p
                   ++ [LogText "Could not measure LCP"]
                   ++ customLines e ++ [LogGroupEnd]))
    | Resolved v =>
        (Resolved tt,
         logs e ([LogGroup "Performance Report"] ++ pageLoadLines p
                   ++ [LogLCP v; lcp_assessment v]
                   ++ customLines e ++ [LogGroupEnd]))
    end.
Proof.
  intros He. unfold logPerformanceReport. rewrite He. cbn [negb].
  assert (Hpl : forall e',
             match p with
             | Some t => if truthy_num p then say (LogPageLoad t) else ret tt
             | None => ret tt
             end e' = (Resolved tt, logs e' (pageLoadLines p))).
  { intros e'. unfold pageLoadLines. destruct p as [t |].
    - destruct (truthy_num (Some t)); [apply say_logs | cbn; now rewrite logs_nil].
    - cbn. now rewrite logs_nil. }
  assert (Hgm : forall ls, customLines (logs e ls) = customLines e) by reflexivity.
  unfold reportBody. cbn [bind catch Monad_Async MonadExc_Async].
  unfold async_bind, async_catch.
  rewrite say_logs, Hpl, logs_logs.
  destruct l as [v | x |].
  - rewrite !say_logs, !logs_logs, logCustomMetrics_logs, Hgm, say_logs, !logs_logs.
    now rewrite <- !app_assoc.
  - rewrite !say_logs, !logs_logs, logCustomMetrics_logs, Hgm, say_logs, !logs_logs.
    now rewrite <- !app_assoc.
  - reflexivity.
Qed.

(** X6.  The LCP promise decides whether the report finishes.  On an
    enabled monitor: if the promise never settles, [logPerformanceReport]
    never settles either, and after the opening group and the page-load
    line it prints nothing -- no custom metric, no closing of the group;
    if the promise rejects, the report prints 'Could not measure LCP',
    goes on to print every metric [getMetrics] lists, closes the group
    and resolves. *)
Theorem report_depends_on_lcp (p : option Q) (e : Env) :
  isEnabled (monitor e) = true ->
  (fst (logPerformanceReport p Pending e) = Pending
   /\ console (snd (logPerformanceReport p Pending e))
      = (console e ++ [LogGroup "Performance Report"] ++ pageLoadLines p)%list)
  /\ (forall x,
        fst (logPerformanceReport p (Rejected x) e) = Resolved tt
        /\ exists before after,
             console (snd (logPerformanceReport p (Rejected x) e))
             = (console e ++ before ++ [LogText "Could not measure LCP"]
                  ++ after ++ [LogGroupEnd])%list
             /\ forall m, In m (getMetrics e) ->
                          In (LogCustomMetric (name m) (duration m)) after).
Proof.
  intros He. split.
  - rewrite (report_transcript p Pending e He). split; reflexivity.
  - intros x. rewrite (report_transcript p (Rejected x) e He). split; [reflexivity |].
    exists ([LogGroup "Performance Report"] ++ pageLoadLines p)%list, (customLines e).
    split.
    + cbn [snd logs console]. now rewrite <- !app_assoc.
    + intros m Hm. unfold customLines.
      destruct (getMetrics e) as [| m0 ms] eqn:E; [destruct Hm |].
      cbn [app]. right. apply in_or_app. left.
      apply in_map_iff. exists m. split; [reflexivity | exact Hm].
Qed.

Lemma report_depends_on_lcp_witness :
  let e := run [CallStart "a"; Tick 30; CallEnd "a"] (init_env (Some "development") 0) in
  fst (logPerformanceReport (Some 12) Pending e) = Pending
  /\ console (snd (logPerformanceReport (Some 12) Pending e))
     = (console e ++ [LogGroup "Performance Report"] ++ pageLoadLines (Some 12))%list.
Proof.
  intros e.
  assert (He : isEnabled (monitor e) = true) by reflexivity.
  destruct (report_depends_on_lcp (Some 12) e He) as [H _].
  exact H.
Defined.




End MonitorHistories.

(* ===================================================================== *)
(** * Further properties of the upload, results and index components *)
(* ===================================================================== *)

Section UploadOutcome.

Import Upload UploadHandlers.

Variable createObjectURL : File -> string.

(** X8.  Every selection gets exactly one answer.  Whether the files come
    from a drop or from the file dialog (whose list may be [null]),
    exactly one toast is shown and [onImageUpload] is called at most once;
    when it is called, it is with a file of the selection whose MIME type
    starts with ['image/'] and whose size is at most 10MB, together with
    the object URL made for that same file, and the toast is the success
    toast; when it is not called, the toast is one of the two
    rejections. *)
Theorem file_selection_outcome (selection : option (list File)) (isDragOver : bool) :
  let es := handleFileSelect createObjectURL selection in
  List.length (toastTitles es) = 1%nat
  /\ (List.length (uploads es) <= 1)%nat
  /\ (forall f u,
        In (f, u) (uploads es) ->
        (exists files, selection = Some files /\ In f files)
        /\ isImage f = true
        /\ (size f <= maxSize)%N
        /\ u = createObjectURL f
        /\ toastTitles es = ["Image uploaded successfully"])
  /\ (uploads es = [] ->
      toastTitles es = ["Invalid file type"] \/ toastTitles es = ["File too large"])
  /\ (forall files,
        handleDrop createObjectURL files isDragOver
        = (false, handleFileSelect createObjectURL (Some files))).
Proof.
  intros es. subst es. unfold handleDrop, handleFileSelect, handleFiles.
  set (files := match selection with Some l => l | None => [] end).
  destruct (find isImage files) as [imageFile |] eqn:Hfind;
    [destruct (maxSize <? size imageFile)%N eqn:Hsz |];
    (split; [reflexivity | split; [cbn; lia | split; [| split; [| reflexivity]]]]).
  - intros f u [].
  - intros _. now right.
  - intros f u [[= <- <-] | []].
    apply find_some in Hfind as [Hin Himg]. apply N.ltb_ge in Hsz.
    repeat split; try assumption.
    destruct selection as [l |]; [now exists l | destruct Hin].
  - discriminate.
  - intros f u [].
  - intros _. now left.
Qed.

End UploadOutcome.

Section ResultsMore.

Import Results.

Lemma lower_ascii_idempotent (c : ascii) :
  lower_ascii (lower_ascii c) = lower_ascii c.
Proof. destruct c as [[] [] [] [] [] [] [] []]; reflexivity. Qed.

Lemma toLowerCase_idempotent (s : string) :
  toLowerCase (toLowerCase s) = toLowerCase s.
Proof.
  induction s as [| c s IH]; cbn; [reflexivity |].
  now rewrite lower_ascii_idempotent, IH.
Qed.

(** X9.  Icon, colour and advice agree, whatever the capitalisation.  For
    every disease label: the icon is the check mark exactly when the
    colour is green exactly when the label is 'normal' up to case, which
    is also when the recommendation says the scan appears normal; and two
    labels that differ only in case get the same icon and colour. *)
Theorem result_style_consistent (d : string) :
  (getResultIcon d = "CheckCircle2" <-> toLowerCase d = "normal")
  /\ (getResultColor d = "text-neon-green" <-> toLowerCase d = "normal")
  /\ (getResultColor d = "text-neon-orange" <->
      toLowerCase d <> "normal" /\ includes (toLowerCase d) "diabetic" = true)
  /\ getResultIcon (toLowerCase d) = getResultIcon d
  /\ getResultColor (toLowerCase d) = getResultColor d.
Proof.
  unfold getResultIcon, getResultColor. rewrite toLowerCase_idempotent.
  destruct (String.eqb_spec (toLowerCase d) "normal") as [E | E];
    [| destruct (includes (toLowerCase d) "diabetic") eqn:I];
    intuition (try discriminate; try congruence).
Qed.

Lemma percent_of_zero (c : Q) : Qeq_bool c 0 = true -> percent c = 0%Z.
Proof.
  intros H. apply Qeq_bool_iff in H. unfold percent, Math_round.
  assert (E : c * 100 + (1 # 2) == 1 # 2) by (rewrite H; reflexivity).
  now rewrite E.
Qed.

(** X10.  The downloaded report states what the card shows.  For every
    result the report built by [generatePDFReport] carries the disease
    label and the same rounded percentage as the confidence badge -- also
    for a confidence of zero, which the report handles by a separate
    branch. *)
Theorem report_matches_badge (r : PredictionResult) (today : string) :
  generatePDFReport (Some r) today
  = DownloadFile
      ("data:text/plain;charset=utf-8,AI Eye Scan Report" ++ nl ++ nl
         ++ "Disease: " ++ disease r ++ nl
         ++ "Confidence: " ++ Z_toString (percent (confidence r)) ++ "%" ++ nl
         ++ "Date: " ++ today)
      "eye-scan-report.txt"
  /\ confidenceBadge r
     = Elem "Badge" noAttrs
            [Text "AI Confidence: ";
             Text (Z_toString (percent (confidence r)));
             Text "%"].
Proof.
  split; [| reflexivity].
  unfold generatePDFReport.
  destruct (Qeq_bool (confidence r) 0) eqn:E; cbn [negb]; [| reflexivity].
  now rewrite (percent_of_zero _ E).
Qed.

(** X11.  The heatmap button and its handler agree.  For every result the
    button is enabled exactly when its click opens the heatmap window, on
    the data URL of the result's non-empty heatmap; the 'Heatmap not
    available' notice is the handler of the disabled button only, so no
    click can bring it up. *)
Theorem heatmap_button_agrees (r : PredictionResult) :
  exists attrs label,
    heatmapButton r = Elem "Button" attrs [Elem "Eye" noAttrs []; Text label]
    /\ ((disabled attrs = false
         /\ label = "View AI Heatmap"
         /\ exists h, heatmap r = Some h /\ h <> ""
                      /\ onClick attrs
                         = Some (OpenHeatmapWindow
                                   ("AI Heatmap Analysis - " ++ disease r)
                                   (disease r) (percent (confidence r))
                                   ("data:image/png;base64," ++ h)))
        \/ (disabled attrs = true
            /\ label = "Heatmap Unavailable"
            /\ (heatmap r = None \/ heatmap r = Some "")
            /\ onClick attrs
               = Some (ShowNotice "Heatmap not available for this prediction"))).
Proof.
  unfold heatmapButton, heatmapClick.
  destruct (heatmap r) as [h |] eqn:Hh; cbn.
  - destruct (String.eqb_spec h "") as [-> | Hne]; cbn.
    + eexists; eexists; split; [reflexivity |]. right. repeat split. now right.
    + eexists; eexists; split; [reflexivity |]. left. repeat split.
      exists h. repeat split. exact Hne.
  - eexists; eexists; split; [reflexivity |]. right. repeat split. now left.
Qed.

End ResultsMore.

Section IndexMore.

Import Performance Results IndexPage IndexRequest.

Variable fetch : Request -> Async Response.
Variable imageFile : Upload.File.
Variable imageUrl : string.

(** X12.  [handleImageUpload] never rejects and never leaves the spinner
    on.  For every behaviour of [fetch]: either the promise resolves, and
    then [isLoading] is false, [uploadedImage] is the given URL and a
    prediction result is set; or the request is still pending, and then
    [isLoading] is true, [uploadedImage] is the given URL and the previous
    prediction result is untouched. *)
Theorem handleImageUpload_settles (random : Q) (s : IndexState) (e : Env) :
  0 <= random -> random < 1 ->
  let '(o, s', _) := handleImageUpload fetch random imageFile imageUrl s e in
  (o = Resolved tt
   /\ isLoading s' = false
   /\ uploadedImage s' = Some imageUrl
   /\ predictionResult s' <> None)
  \/ (o = Pending
      /\ isLoading s' = true
      /\ uploadedImage s' = Some imageUrl
      /\ predictionResult s' = predictionResult s).
Proof.
  intros H0 H1. unfold handleImageUpload.
  destruct (measureApiCall "image-prediction" (predictCall fetch imageFile) e)
    as [[result | error |] e1].
  - left. repeat split. discriminate.
  - left. repeat split. cbn.
    destruct (pickMock_in_mockResults random H0 H1) as (m & Hm & _).
    rewrite Hm. discriminate.
  - right. repeat split.
Qed.

(** X13.  A response whose status is not ok: the body is never read.
    Whatever [response.json()] would do, the upload fails with the error
    'API request failed with status: <status>', which is logged, the
    metric of the call is ended, and the page gets a mock result. *)
Theorem handleImageUpload_bad_status (random : Q) (s : IndexState) (e e1 : Env)
        (response : Response) :
  fetch (predictRequest imageFile) (snd (start "api-image-prediction" e))
    = (Resolved response, e1) ->
  ok response = false ->
  handleImageUpload fetch random imageFile imageUrl s e
  = (Resolved tt,
     mkIndexState (Some imageUrl) (pickMock random) false,
     log (snd (end_ "api-image-prediction" e1))
         (LogError "Error uploading image:"
            (mkThrown "Error"
               ("API request failed with status: " ++ Z_toString (status response))))).
Proof.
  intros Hf Hok. unfold handleImageUpload.
  rewrite measureApiCall_unfold. unfold predictCall.
  cbn [bind ret raise Monad_Async MonadExc_Async]. unfold async_bind.
  fold (predictRequest imageFile). cbn [append]. rewrite Hf, Hok. reflexivity.
Qed.

(** X14.  From the server's answer to the screen.  When [fetch] resolves
    with an ok response whose JSON body is [data], the page stores
    exactly the fields of [data], and the results section then shows the
    server's disease label, with the heatmap button enabled exactly when
    [data.heatmap] is a non-empty string. *)
Theorem upload_success_is_shown (random : Q) (s : IndexState) (e e1 e2 : Env)
        (response : Response) (data : ApiData) (today : string) :
  fetch (predictRequest imageFile) (snd (start "api-image-prediction" e))
    = (Resolved response, e1) ->
  ok response = true ->
  json response e1 = (Resolved data, e2) ->
  let result := mkResult (data_disease data) (data_confidence data)
                         (data_heatmap data) (data_processing_time data)
                         (data_image_quality data) (data_all_predictions data) in
  handleImageUpload fetch random imageFile imageUrl s e
  = (Resolved tt,
     mkIndexState (Some imageUrl) (Some result) false,
     snd (end_ "api-image-prediction" e2))
  /\ exists tree,
       ResultsSection (Some result) (Some imageUrl) false today = Some tree
       /\ occurs (Elem "h3"
                       (cls ("text-2xl font-bold mb-2 "
                               ++ getResultColor (data_disease data)))
                       [Text (data_disease data)]) tree
       /\ occurs (heatmapButton result) tree
       /\ (disabledNodes tree = [] <-> truthy_str (data_heatmap data) = true).
Proof.
  intros Hf Hok Hj result. split.
  - unfold handleImageUpload.
    rewrite measureApiCall_unfold. unfold predictCall.
    cbn [bind ret raise Monad_Async MonadExc_Async]. unfold async_bind.
    fold (predictRequest imageFile). cbn [append]. rewrite Hf, Hok. cbn [negb].
    rewrite Hj. reflexivity.
  - unfold ResultsSection. rewrite andb_false_r.
    eexists; split; [reflexivity |].
    split; [| split].
    + eapply occurs_child; [left; reflexivity |].
      eapply occurs_child; [right; left; reflexivity |].
      eapply occurs_child; [left; reflexivity |].
      eapply occurs_child; [right; left; reflexivity |].
      eapply occurs_child; [left; reflexivity |].
      eapply occurs_child; [left; reflexivity |].
      apply occurs_here.
    + eapply occurs_child; [left; reflexivity |].
      eapply occurs_child; [right; left; reflexivity |].
      eapply occurs_child; [left; reflexivity |].
      eapply occurs_child; [right; left; reflexivity |].
      eapply occurs_child; [right; right; left; reflexivity |].
      eapply occurs_child; [left; reflexivity |].
      apply occurs_here.
    + cbn. destruct (truthy_str (data_heatmap data)); cbn; split;
        intros H; try reflexivity; discriminate.
Qed.

(** X15.  When the results section is on screen.  It renders nothing in
    the initial state and after [resetAnalysis], from any state; it
    renders something during and after any upload started with a
    non-empty image URL. *)
Theorem results_visibility (random : Q) (s : IndexState) (e : Env) (today : string) :
  imageUrl <> "" ->
  let shown st := ResultsSection (predictionResult st) (uploadedImage st)
                                 (isLoading st) today in
  shown initialState = None
  /\ shown (resetAnalysis s) = None
  /\ let '(_, s', _) := handleImageUpload fetch random imageFile imageUrl s e in
     shown s' <> None.
Proof.
  intros Hurl shown. split; [reflexivity |]. split; [reflexivity |].
  assert (Htr : truthy_str (Some imageUrl) = true).
  { cbn. now destruct (String.eqb_spec imageUrl ""). }
  unfold handleImageUpload.
  destruct (measureApiCall "image-prediction" (predictCall fetch imageFile) e)
    as [[result | error |] e1]; unfold shown, ResultsSection;
    cbn -[truthy_str]; rewrite Htr; cbn; discriminate.
Qed.

End IndexMore.

Section UiWitnesses.

Import Performance Results IndexPage.

Lemma handleImageUpload_settles_witness :
  let '(o, s', _) :=
    handleImageUpload fetchNetworkError (1 # 2) Upload.scanJpeg "blob:scan"
                      initialState (init_env None 0) in
  (o = Resolved tt
   /\ isLoading s' = false
   /\ uploadedImage s' = Some "blob:scan"
   /\ predictionResult s' <> None)
  \/ (o = Pending
      /\ isLoading s' = true
      /\ uploadedImage s' = Some "blob:scan"
      /\ predictionResult s' = predictionResult initialState).
Proof.
  apply (handleImageUpload_settles fetchNetworkError Upload.scanJpeg "blob:scan"
           (1 # 2) initialState (init_env None 0)).
  - discriminate.
  - reflexivity.
Defined.

Lemma handleImageUpload_bad_status_witness :
  handleImageUpload (fetchStatus 503) (1 # 2) Upload.scanJpeg "blob:scan"
                    initialState (init_env None 0)
  = (Resolved tt,
     mkIndexState (Some "blob:scan") (pickMock (1 # 2)) false,
     log (snd (end_ "api-image-prediction" (init_env None 0)))
         (LogError "Error uploading image:"
            (mkThrown "Error" "API request failed with status: 503"))).
Proof.
  apply (handleImageUpload_bad_status (fetchStatus 503) Upload.scanJpeg "blob:scan"
           (1 # 2) initialState (init_env None 0) (init_env None 0)
           (mkResponse false 503
              (fun e' => (Rejected (mkThrown "SyntaxError" "Unexpected token"), e'))));
    reflexivity.
Defined.

Lemma upload_success_is_shown_witness :
  let data := mkApiData "Cataract" (92 # 100) (Some "iVBORw0KGgo=") (Some (21 # 10))
                        (Some "Good") None in
  let result := mkResult "Cataract" (92 # 100) (Some "iVBORw0KGgo=") (Some (21 # 10))
                         (Some "Good") None in
  handleImageUpload (fetchOk data) (1 # 2) Upload.scanJpeg "blob:scan"
                    initialState (init_env None 0)
  = (Resolved tt,
     mkIndexState (Some "blob:scan") (Some result) false,
     snd (end_ "api-image-prediction" (init_env None 0)))
  /\ exists tree,
       ResultsSection (Some result) (Some "blob:scan") false "1/1/2025" = Some tree
       /\ occurs (Elem "h3" (cls ("text-2xl font-bold mb-2 " ++ getResultColor "Cataract"))
                       [Text "Cataract"]) tree
       /\ occurs (heatmapButton result) tree
       /\ (disabledNodes tree = [] <-> truthy_str (Some "iVBORw0KGgo=") = true).
Proof.
  intros data result.
  apply (upload_success_is_shown (fetchOk data) Upload.scanJpeg "blob:scan"
           (1 # 2) initialState (init_env None 0) (init_env None 0) (init_env None 0)
           (mkResponse true 200 (fun e' => (Resolved data, e'))) data "1/1/2025");
    reflexivity.
Defined.

Lemma results_visibility_witness :
  let shown st := ResultsSection (predictionResult st) (uploadedImage st)
                                 (isLoading st) "1/1/2025" in
  shown initialState = None
  /\ shown (resetAnalysis (mkIndexState (Some "blob:old") None true)) = None
  /\ let '(_, s', _) :=
       handleImageUpload (fetchStatus 500) (1 # 2) Upload.scanJpeg "blob:scan"
                         initialState (init_env None 0) in
     shown s' <> None.
Proof.
  apply (results_visibility (fetchStatus 500) Upload.scanJpeg "blob:scan" (1 # 2)
           (mkIndexState (Some "blob:old") None true) (init_env None 0) "1/1/2025").
  discriminate.
Defined.

End UiWitnesses.

(* ===================================================================== *)
(** * Further properties of components/ChatBot.tsx *)
(* ===================================================================== *)

Section ChatMore.

Import Results Chat ChatQuick.

(** ** Substrings *)

Lemma app_string_assoc (a b c : string) : (a ++ b) ++ c = a ++ (b ++ c).
Proof. induction a as [| x a IH]; cbn; [reflexivity | now rewrite IH]. Qed.

Lemma app_string_nil_r (a : string) : a ++ "" = a.
Proof. induction a as [| x a IH]; cbn; [reflexivity | now rewrite IH]. Qed.

Lemma prefix_app (p s : string) :
  String.prefix p s = true <-> exists b, s = p ++ b.
Proof.
  revert s. induction p as [| c p IH]; intros s.
  - split; [intros _; now exists s | intros _; now destruct s].
  - destruct s as [| d s]; cbn.
    + split; [discriminate | intros [b Hb]; discriminate].
    + destruct (ascii_dec c d) as [-> | Hne].
      * rewrite IH. split; intros [b Hb]; exists b; [now rewrite Hb | now inversion Hb].
      * split; [discriminate | intros [b Hb]; inversion Hb; congruence].
Qed.

Lemma includes_spec (s p : string) :
  includes s p = true <-> exists a b, s = a ++ p ++ b.
Proof.
  induction s as [| c s IH]; cbn [includes].
  - rewrite orb_false_r, prefix_app. split.
    + intros [b Hb]. now exists "", b.
    + intros (a & b & H). destruct a; [now exists b | discriminate].
  - rewrite orb_true_iff, prefix_app, IH. split.
    + intros [[b Hb] | (a & b & H)].
      * now exists "", b.
      * exists (String c a), b. cbn. now rewrite H.
    + intros (a & b & H). destruct a as [| x a]; cbn in H.
      * left. now exists b.
      * right. inversion H. now exists a, b.
Qed.

Lemma includes_trans (s a b : string) :
  includes s a = true -> includes a b = true -> includes s b = true.
Proof.
  rewrite !includes_spec. intros (x & y & ->) (u & v & ->).
  exists (x ++ u), (v ++ y). now rewrite !app_string_assoc.
Qed.

Lemma wordRuns_substring (s : string) :
  forall cur t, In t (wordRuns s cur) -> exists a b, cur ++ s = a ++ t ++ b.
Proof.
  induction s as [| c s IH]; intros cur t; cbn [wordRuns].
  - destruct (String.eqb cur ""); [intros [] |].
    intros [<- | []]. exists "", "". now rewrite !app_string_nil_r.
  - destruct (isWordChar c).
    + intros H. destruct (IH _ _ H) as (a & b & E).
      exists a, b. rewrite <- E. now rewrite app_string_assoc.
    + intros H. apply in_app_or in H as [H | H].
      * destruct (String.eqb cur ""); [destruct H |].
        destruct H as [<- | []]. now exists "", (String c s).
      * destruct (IH _ _ H) as (a & b & E). cbn in E.
        exists (cur ++ String c a), b.
        rewrite app_string_assoc. cbn. now rewrite E.
Qed.

Lemma token_included (s t : string) :
  In t (splitWords s) -> includes s t = true.
Proof.
  intros H. apply includes_spec.
  destruct (wordRuns_substring s "" t H) as (a & b & E). now exists a, b.
Qed.

Lemma matchesKeyword_collapse (lowerInput keyword : string) :
  splitWords keyword <> [] ->
  matchesKeyword lowerInput (splitWords lowerInput) keyword
  = existsb (fun kt => includes lowerInput kt) (splitWords keyword).
Proof.
  intros Hne. unfold matchesKeyword.
  destruct (existsb (fun kt => includes lowerInput kt) (splitWords keyword)) eqn:E.
  - apply orb_true_r.
  - rewrite orb_false_r. apply orb_false_iff. split.
    + apply not_true_is_false. intros H.
      apply existsb_exists in H as (token & Hin & Hk).
      unfold arrayIncludes in Hk.
      apply existsb_exists in Hk as (kt & Hkt & Heq).
      apply String.eqb_eq in Heq. subst kt.
      assert (existsb (fun kt => includes lowerInput kt) (splitWords keyword) = true).
      { apply existsb_exists. exists token. split; [exact Hkt |].
        now apply token_included. }
      congruence.
    + apply not_true_is_false. intros H.
      destruct (splitWords keyword) as [| kt kts] eqn:Hk; [now destruct Hne |].
      assert (Hin : In kt (splitWords keyword)) by (rewrite Hk; now left).
      cbn in E. apply orb_false_iff in E as [E _].
      rewrite (includes_trans _ _ _ H (token_included _ _ Hin)) in E. discriminate.
Qed.

Lemma find_ext {A} (f g : A -> bool) (l : list A) :
  (forall x, In x l -> f x = g x) -> find f l = find g l.
Proof.
  induction l as [| x l IH]; cbn; intros H; [reflexivity |].
  rewrite (H x (or_introl eq_refl)).
  destruct (g x); [reflexivity |]. apply IH. intros y Hy. apply H. now right.
Qed.

Lemma findResponse_by_substring (input : string) :
  findResponse input
  = match find (fun kv => existsb (fun kt => includes (toLowerCase input) kt)
                                  (splitWords (fst kv))) FAQ with
    | Some (_, response) => Some response
    | None => None
    end.
Proof.
  unfold findResponse.
  rewrite (find_ext
             (fun kv => matchesKeyword (toLowerCase input)
                                       (splitWords (toLowerCase input)) (fst kv))
             (fun kv => existsb (fun kt => includes (toLowerCase input) kt)
                                (splitWords (fst kv)))); [reflexivity |].
  intros [k r] Hin. apply matchesKeyword_collapse.
  revert Hin. unfold FAQ. cbn [In fst].
  intros H; repeat (destruct H as [[= <- <-] | H]; [vm_compute; discriminate |]).
  destruct H.
Qed.

Lemma find_map {A B} (g : A -> B) (f : B -> bool) (l : list A) (x : A) :
  find (fun a => f (g a)) l = Some x -> find f (map g l) = Some (g x).
Proof.
  induction l as [| a l IH]; cbn; [discriminate |].
  destruct (f (g a)); [now intros [= ->] | exact IH].
Qed.

Lemma dead_keys_skipped (L : string) (kw : string * list string) :
  find (fun kw => existsb (fun kt => includes L kt) (snd kw)) faqKeyWords = Some kw ->
  fst kw <> "how ai works" /\ fst kw <> "ai accuracy".
Proof.
  assert (Hw : includes L "work" = false -> includes L "works" = false).
  { intros H. apply not_true_is_false. intros H'.
    rewrite (includes_trans L "works" "work" H' eq_refl) in H. discriminate. }
  unfold faqKeyWords. cbn [find snd].
  do 7 (match goal with
        | |- (if existsb ?f ?l then _ else _) = _ -> _ =>
            destruct (existsb f l);
            [intros [= <-]; split; discriminate |]
        end).
  (* 'how does ai work' *)
  destruct (existsb (fun kt => includes L kt) ["how"; "does"; "ai"; "work"]) eqn:E8;
    [intros [= <-]; split; discriminate |].
  cbn [existsb] in E8.
  apply orb_false_iff in E8 as [Ehow E8].
  apply orb_false_iff in E8 as [_ E8].
  apply orb_false_iff in E8 as [Eai E8].
  apply orb_false_iff in E8 as [Ework _].
  (* 'how ai works' is skipped *)
  cbn [existsb]. rewrite Ehow, Eai, (Hw Ework). cbn [orb].
  (* 'accuracy' *)
  destruct (includes L "accuracy") eqn:Eacc; cbn [orb];
    [intros [= <-]; split; discriminate |].
  (* 'ai accuracy' is skipped *)
  do 6 (match goal with
        | |- (if ?b then _ else _) = _ -> _ =>
            destruct b; [intros [= <-]; split; discriminate |]
        end).
  discriminate.
Qed.

(** X16.  The three-way test of the FAQ loop comes down to its last
    part.  The reply to an input is the response of the first FAQ entry
    one of whose keyword words occurs in the lower-cased input as a
    substring -- word boundaries play no role, and the tests for a shared
    word and for the whole keyword never decide. *)
Theorem findResponse_first_substring_match (input : string) :
  findResponse input
  = match find (fun kv => existsb (fun kt => includes (toLowerCase input) kt)
                                  (splitWords (fst kv))) FAQ with
    | Some (_, response) => Some response
    | None => None
    end.
Proof. exact (findResponse_by_substring input). Qed.

(** "This is odd" greets back: it contains "hi". *)
Example substring_match_ignores_words :
  findResponse "This is odd"
  = Some "Hi there! Ask me anything about eye diseases, our AI, or how to use this tool.".
Proof. vm_compute. reflexivity. Qed.

Lemma faq_response_names_key (k k' r : string) :
  In (k, r) FAQ -> In (k', r) FAQ -> k = k'.
Proof.
  assert (H : forallb (fun a =>
                 forallb (fun b => implb (String.eqb (snd a) (snd b))
                                         (String.eqb (fst a) (fst b))) FAQ) FAQ
              = true) by (vm_compute; reflexivity).
  intros Ha Hb. rewrite forallb_forall in H.
  specialize (H _ Ha). rewrite forallb_forall in H. specialize (H _ Hb).
  cbn in H. rewrite String.eqb_refl in H. now apply String.eqb_eq.
Qed.

(** X17.  Two entries of the FAQ can never be the answer.  Whatever the
    user types, the reply is never the response filed under 'how ai
    works' nor the one filed under 'ai accuracy': an input that matches
    one of them already matches 'how does ai work' or 'accuracy', which
    come earlier in the table. *)
Theorem faq_entries_never_returned (input k r : string) :
  k = "how ai works" \/ k = "ai accuracy" ->
  In (k, r) FAQ ->
  findResponse input <> Some r.
Proof.
  intros Hk Hin Hfind.
  rewrite findResponse_by_substring in Hfind.
  destruct (find _ FAQ) as [[k' r'] |] eqn:E; [| discriminate].
  injection Hfind as ->.
  pose proof (find_some _ _ E) as [Hin' _].
  apply (find_map (fun kv => (fst kv, splitWords (fst kv)))
                  (fun kw => existsb (fun kt => includes (toLowerCase input) kt)
                                     (snd kw))) in E.
  change (map (fun kv => (fst kv, splitWords (fst kv))) FAQ) with faqKeyWords in E.
  apply dead_keys_skipped in E as [E1 E2]. cbn [fst] in E1, E2.
  rewrite (faq_response_names_key _ _ _ Hin Hin') in Hk.
  destruct Hk; contradiction.
Qed.

Lemma faq_entries_never_returned_witness :
  findResponse "How accurate is the AI? What is the AI accuracy?"
  <> Some "The AI is about 89% accurate on test data, but always consult a doctor for a final diagnosis.".
Proof.
  apply (faq_entries_never_returned
           "How accurate is the AI? What is the AI accuracy?" "ai accuracy").
  - now right.
  - unfold FAQ. do 10 right. now left.
Defined.

Lemma findResponse_is_faq (input r : string) :
  findResponse input = Some r ->
  r <> fallback /\ r <> stillLearning /\ r <> "".
Proof.
  assert (H : forallb (fun kv => negb (String.eqb (snd kv) fallback)
                                 && negb (String.eqb (snd kv) stillLearning)
                                 && negb (String.eqb (snd kv) "")) FAQ = true)
    by (vm_compute; reflexivity).
  unfold findResponse.
  destruct (find _ FAQ) as [[k r'] |] eqn:E; [| discriminate].
  intros [= ->]. apply find_some in E as [Hin _].
  rewrite forallb_forall in H. specialize (H _ Hin). cbn in H.
  apply andb_true_iff in H as [H H3]. apply andb_true_iff in H as [H1 H2].
  apply negb_true_iff in H1, H2, H3.
  repeat split; now apply String.eqb_neq.
Qed.

(** X18.  The bot does not repeat its apology.  When the last bot message
    of the rendered list is the 'Sorry, I couldn't find an answer'
    fallback, the next reply is never that fallback again: it is an FAQ
    response or the 'I'm still learning!' message.  Conversely the 'still
    learning' message is only sent right after the fallback, to an input
    that matches no FAQ entry. *)
Theorem no_fallback_twice (msgs : list Message) (input : string) :
  (lastBotMsg msgs = Some fallback -> nextBotMsg msgs input <> fallback)
  /\ (nextBotMsg msgs input = stillLearning ->
      lastBotMsg msgs = Some fallback /\ findResponse input = None)
  /\ (nextBotMsg msgs input = fallback ->
      lastBotMsg msgs <> Some fallback /\ findResponse input = None).
Proof.
  unfold nextBotMsg.
  destruct (findResponse input) as [r |] eqn:Hr.
  - destruct (findResponse_is_faq input r Hr) as (H1 & H2 & H3).
    assert (Ht : truthy_str (Some r) = true).
    { cbn. now destruct (String.eqb_spec r ""). }
    rewrite Ht. repeat split; intros; congruence.
  - destruct (lastBotMsg msgs) as [l |].
    + destruct (String.eqb_spec l fallback) as [-> | Hne].
      * repeat split; intros; try discriminate; congruence.
      * repeat split; intros; try discriminate; congruence.
    + repeat split; intros; try discriminate; congruence.
Qed.

Lemma no_fallback_twice_witness :
  let msgs := [greeting; mkMessage "7" user "zzz" 7; mkMessage "9" bot fallback 9] in
  nextBotMsg msgs "qqq" <> fallback.
Proof.
  intros msgs.
  apply (no_fallback_twice msgs "qqq"). reflexivity.
Defined.

Lemma dropWhile_nil_iff {A} (p : A -> bool) (l : list A) :
  dropWhile p l = [] <-> forallb p l = true.
Proof.
  induction l as [| x l IH]; cbn; [tauto |].
  destruct (p x); cbn; [exact IH | split; discriminate].
Qed.

Lemma dropWhile_head {A} (p : A -> bool) (l : list A) (x : A) (r : list A) :
  dropWhile p l = x :: r -> p x = false /\ In x l.
Proof.
  induction l as [| y l IH]; cbn; [discriminate |].
  destruct (p y) eqn:E.
  - intros H. destruct (IH H) as [Hp Hin]. tauto.
  - intros [= <- <-]. tauto.
Qed.

Lemma dropWhileEnd_keeps_head {A} (p : A -> bool) (x : A) (r : list A) :
  p x = false -> exists r', dropWhileEnd p (x :: r) = x :: r'.
Proof.
  intros Hp. cbn. destruct (dropWhileEnd p r) as [| y r'].
  - rewrite Hp. now exists [].
  - now exists (y :: r').
Qed.

Lemma codePoints_nonempty (n : nat) :
  forall s ch, (String.length s <= n)%nat -> In ch (codePoints s) -> fst ch <> "".
Proof.
  induction n as [| n IH]; intros s ch Hlen.
  - destruct s; [intros [] | cbn in Hlen; lia].
  - destruct s as [| a r]; [intros [] |].
    cbn [String.length] in Hlen.
    assert (Hr : forall r', (String.length r' <= String.length r)%nat ->
                            In ch (codePoints r') -> fst ch <> "").
    { intros r' Hr'. apply IH. lia. }
    cbn [codePoints].
    repeat match goal with
           | |- In _ (match ?x with EmptyString => _ | String _ _ => _ end) -> _ =>
               destruct x
           | |- In _ (if ?b then _ else _) -> _ => destruct b
           end;
      (intros [<- | H]; [cbn; discriminate | revert H; apply Hr; cbn; lia]).
Qed.

Lemma trim_empty_iff (s : string) :
  trim s = "" <-> forallb (fun ch => isSpace (snd ch)) (codePoints s) = true.
Proof.
  unfold trim. set (p := fun ch : string * N => isSpace (snd ch)). split.
  - intros H. apply dropWhile_nil_iff.
    destruct (dropWhile p (codePoints s)) as [| x r] eqn:E; [reflexivity |].
    destruct (dropWhile_head _ _ _ _ E) as [Hp Hin].
    destruct (dropWhileEnd_keeps_head p x r Hp) as [r' Hr'].
    rewrite Hr' in H. cbn in H.
    pose proof (codePoints_nonempty _ s x (le_n _) Hin) as Hne.
    destruct (fst x); [now destruct Hne | discriminate].
  - intros H. apply dropWhile_nil_iff in H. now rewrite H.
Qed.

(** X19.  What gets sent.  [handleSendMessage] does nothing exactly when
    a reply is pending or every character of the input is white space in
    the sense of [trim] -- the empty input, blanks, tabs and line
    breaks, and also the no-break space, the Unicode spaces, the line
    and paragraph separators and the byte order mark; any input with one
    other character is sent, untrimmed. *)
Theorem send_guard (clk : Clock) (s : ChatState) :
  handleSendMessage clk s = ([], [])
  <-> (forallb (fun ch => isSpace (snd ch)) (codePoints (inputValue s)) = true
       \/ loading s = true).
Proof.
  unfold handleSendMessage. rewrite <- trim_empty_iff.
  destruct (String.eqb_spec (trim (inputValue s)) "") as [E | E]; cbn.
  - split; [now left | reflexivity].
  - destruct (loading s); cbn.
    + split; [now right | reflexivity].
    + split; [discriminate | intros [H | H]; [contradiction | discriminate]].
Qed.

(** Inputs of white space only are not sent: a no-break space (as UTF-8
    and as a single byte), a line separator after a tab, an ideographic
    space before a byte order mark.  One letter among them is. *)
Example unicode_blanks_not_sent :
  let byte (n : nat) := String (ascii_of_nat n) "" in
  let nbsp := byte 194%nat ++ byte 160%nat in
  let lineSep := byte 226%nat ++ byte 128%nat ++ byte 168%nat in
  let wide := byte 227%nat ++ byte 128%nat ++ byte 128%nat in
  let bom := byte 239%nat ++ byte 187%nat ++ byte 191%nat in
  let send v := handleSendMessage (mkClock 0 0 0 0) (mkChat [greeting] v false) in
  send nbsp = ([], [])
  /\ send (byte 160%nat) = ([], [])
  /\ send (byte 9%nat ++ lineSep ++ " ") = ([], [])
  /\ send (wide ++ bom) = ([], [])
  /\ send (nbsp ++ "a" ++ nbsp) <> ([], []).
Proof. repeat split. cbn. discriminate. Qed.

(** X20.  The life cycle of one send.  Once the first batch of updates
    is applied, [loading] is true and the input still holds the text, so
    a second [handleSendMessage] does nothing; once the second batch is
    applied, [loading] is false, the input is empty and the list is two
    messages longer, so a further [handleSendMessage] without typing
    does nothing either. *)
Theorem send_life_cycle (clk clk1 clk2 : Clock) (s : ChatState) :
  String.eqb (trim (inputValue s)) "" || loading s = false ->
  let s1 := applyUpdates (fst (handleSendMessage clk s)) s in
  let s2 := applyUpdates (snd (handleSendMessage clk s)) s1 in
  loading s1 = true /\ inputValue s1 = inputValue s
  /\ handleSendMessage clk1 s1 = ([], [])
  /\ loading s2 = false /\ inputValue s2 = ""
  /\ List.length (messages s2) = (List.length (messages s) + 2)%nat
  /\ handleSendMessage clk2 s2 = ([], []).
Proof.
  intros Hg s1 s2.
  assert (E : handleSendMessage clk s
              = ([SetMessages (fun prev => (prev ++ [userMessage clk (inputValue s)])%list);
                  SetLoading true],
                 [SetMessages (fun prev =>
                                 (prev ++ [botMessage clk (messages s) (inputValue s)])%list);
                  SetLoading false;
                  SetInputValue ""])).
  { unfold handleSendMessage. now rewrite Hg. }
  subst s1 s2. rewrite E. cbn [fst snd applyUpdates fold_left applyUpdate
                                messages inputValue loading].
  split; [reflexivity |]. split; [reflexivity |].
  split; [unfold handleSendMessage; cbn [loading]; now rewrite orb_true_r |].
  split; [reflexivity |]. split; [reflexivity |].
  split; [rewrite !length_app; cbn; lia | reflexivity].
Qed.

Lemma send_life_cycle_witness :
  let clk := mkClock 1000 1000 2200 2201 in
  let s := mkChat [greeting] "What is glaucoma?" false in
  let s1 := applyUpdates (fst (handleSendMessage clk s)) s in
  let s2 := applyUpdates (snd (handleSendMessage clk s)) s1 in
  loading s1 = true /\ inputValue s1 = inputValue s
  /\ handleSendMessage clk s1 = ([], [])
  /\ loading s2 = false /\ inputValue s2 = ""
  /\ List.length (messages s2) = (List.length (messages s) + 2)%nat
  /\ handleSendMessage clk s2 = ([], []).
Proof.
  intros clk s.
  apply (send_life_cycle clk clk clk s). reflexivity.
Defined.

(** Every quick question offered under the greeting finds an answer in
    the FAQ. *)
Example quick_questions_answered :
  forallb (fun q => match findResponse q with Some _ => true | None => false end)
          quickQuestions = true.
Proof. vm_compute. reflexivity. Qed.

End ChatMore.

(* ===================================================================== *)
(** * What the upload section lets the user do *)
(* ===================================================================== *)

Section UploadViewFacts.

Import Performance Results IndexPage UploadView.

Lemma available_UploadSection (uploadedImage : option string)
      (isLoading isDragOver : bool) :
  available (UploadSection uploadedImage isLoading isDragOver)
  = (if truthy_str uploadedImage
     then if isLoading then [] else [OnClickReset]
     else [OnDragOver; OnDragLeave; OnDrop; OnChangeFiles]).
Proof.
  unfold UploadSection.
  destruct uploadedImage as [url |]; [| reflexivity].
  destruct (truthy_str (Some url)); [| reflexivity].
  destruct isLoading; reflexivity.
Qed.

(** X21.  The upload section as a lock.  While no image is uploaded the
    only things a user can trigger are the drag handlers, the drop and
    the file dialog; once an image is uploaded these are gone and the
    only action is 'Remove Image', which is disabled, together with the
    second button, while the analysis is loading.  The second button,
    'Analyze Again' ('Analyzing...' while loading), carries no handler in
    any state. *)
Theorem upload_section_actions (uploadedImage : option string)
        (isLoading isDragOver : bool) :
  let tree := UploadSection uploadedImage isLoading isDragOver in
  available tree
  = (if truthy_str uploadedImage
     then if isLoading then [] else [OnClickReset]
     else [OnDragOver; OnDragLeave; OnDrop; OnChangeFiles])
  /\ buttons tree
     = (if truthy_str uploadedImage
        then [(isLoading, [OnClickReset], ["Remove Image"]);
              (isLoading, [],
               [if isLoading then "Analyzing..." else "Analyze Again"])]
        else [(false, [], ["Select Image"])]).
Proof.
  intros tree. subst tree. unfold UploadSection.
  destruct uploadedImage as [url |]; [| split; reflexivity].
  destruct (truthy_str (Some url)); [| split; reflexivity].
  destruct isLoading; split; reflexivity.
Qed.

Variable fetch : Request -> Async Response.
Variable imageFile : Upload.File.
Variable imageUrl : string.

(** X22.  One upload at a time.  From the moment [handleImageUpload] is
    called with a non-empty image URL the upload section offers no way to
    select another file: while the request is pending it offers nothing
    at all, and once it has settled it offers 'Remove Image' only; after
    [resetAnalysis] the drop zone and the file dialog are back. *)
Theorem one_upload_at_a_time (random : Q) (s : IndexState) (e : Env)
        (isDragOver : bool) :
  imageUrl <> "" ->
  let view st := available (UploadSection (IndexPage.uploadedImage st)
                                          (IndexPage.isLoading st) isDragOver) in
  (let '(o, s', _) := handleImageUpload fetch random imageFile imageUrl s e in
   (o = Pending /\ view s' = [])
   \/ (o = Resolved tt /\ view s' = [OnClickReset]))
  /\ view (resetAnalysis s) = [OnDragOver; OnDragLeave; OnDrop; OnChangeFiles].
Proof.
  intros Hurl view. split; [| reflexivity].
  assert (Htr : truthy_str (Some imageUrl) = true).
  { cbn. now destruct (String.eqb_spec imageUrl ""). }
  unfold handleImageUpload.
  destruct (measureApiCall "image-prediction" (predictCall fetch imageFile) e)
    as [[result | error |] e1]; unfold view;
    rewrite available_UploadSection;
    cbn -[truthy_str]; rewrite Htr; tauto.
Qed.

End UploadViewFacts.

Lemma one_upload_at_a_time_witness :
  let view st := UploadView.available
                   (UploadView.UploadSection (IndexPage.uploadedImage st)
                                             (IndexPage.isLoading st) false) in
  (let '(o, s', _) :=
     IndexPage.handleImageUpload (IndexPage.fetchStatus 500) (1 # 2)
                                 Upload.scanJpeg "blob:scan"
                                 IndexPage.initialState
                                 (Performance.init_env None 0) in
   (o = Pending /\ view s' = [])
   \/ (o = Resolved tt /\ view s' = [UploadView.OnClickReset]))
  /\ view (IndexPage.resetAnalysis IndexPage.initialState)
     = [UploadView.OnDragOver; UploadView.OnDragLeave; UploadView.OnDrop;
        UploadView.OnChangeFiles].
Proof.
  apply (one_upload_at_a_time (IndexPage.fetchStatus 500) Upload.scanJpeg "blob:scan"
           (1 # 2) IndexPage.initialState (Performance.init_env None 0) false).
  discriminate.
Defined.
